(** * Archemeds: the task-orchestration core

    A shallow embedding of the orchestration code of the repository
    (backend/models/agent_models.py and backend/core/orchestration/) together
    with the properties its specification states about it.

    Conventions of the embedding.
    - Python [str] is [string]; a [str]-mixin [Enum] is an inductive type with
      its [value] function; a pydantic model is a record, and its constructor a
      function that may raise pydantic's [ValidationError].
    - [datetime] values are integers ([Z]), microseconds since the epoch.
    - Python [float]s are read as exact rationals ([Q]): rounding is not
      modelled.
    - A coroutine is a computation over a world [W]: [M W A] takes the world,
      returns a value or raises, and leaves the world it reached.  The world
      holds whatever the external collaborators (agents, language models)
      read and change; the clock and the uuid source live in it.
    - A [Dict] whose iteration order matters is an association list kept with
      distinct keys; one read only by key is a [gmap]; a [set] is a [gset]. *)

From Stdlib Require Import Ascii String QArith Lqa.
From stdpp Require Import base list strings gmap.

Local Open Scope string_scope.
Local Open Scope Z_scope.
Local Open Scope list_scope.

(** ** Exceptions and coroutines *)

(** Instances of Python's [Exception] that the modelled code raises or
    catches.  Signals that derive from [BaseException] only (keyboard
    interrupt, task cancellation) are no part of the model. *)
Inductive Exn : Type :=
  | ValidationError (model : string) (fields : list string)
  | AttributeError (msg : string)
  | Exception (cls msg : string).

(** [str(e)].  Of pydantic's report only the header line and the locations
    are kept. *)
Definition str (e : Exn) : string :=
  match e with
  | ValidationError model fields =>
      ("validation error for " ++ model ++ ": "
       ++ String.concat ", " fields)%string
  | AttributeError msg => msg
  | Exception _ msg => msg
  end.

Inductive Outcome (A : Type) : Type :=
  | Return (a : A)
  | Raise (e : Exn).
Arguments Return {A} a.
Arguments Raise {A} e.

Definition M (W A : Type) : Type := W -> Outcome A * W.

Definition ret {W A} (a : A) : M W A := fun w => (Return a, w).

Definition raise {W A} (e : Exn) : M W A := fun w => (Raise e, w).

Definition bind {W A B} (m : M W A) (k : A -> M W B) : M W B :=
  fun w =>
    match m w with
    | (Return a, w') => k a w'
    | (Raise e, w') => (Raise e, w')
    end.

(** [try: m except Exception as e: h e] *)
Definition try_except {W A} (m : M W A) (h : Exn -> M W A) : M W A :=
  fun w =>
    match m w with
    | (Return a, w') => (Return a, w')
    | (Raise e, w') => h e w'
    end.

(** A constructor call: it returns or raises without touching the world. *)
Definition lift {W A} (o : Outcome A) : M W A := fun w => (o, w).

Declare Scope coroutine_scope.
Delimit Scope coroutine_scope with M.
Notation "x <- m ;; k" := (bind m (fun x => k))
  (at level 100, m at next level, right associativity) : coroutine_scope.

(** What the interpreter provides: the clock behind [datetime.utcnow()] and
    the generator behind [uuid.uuid4()]. *)
Class Runtime (W : Type) : Type := {
  utcnow_of : W -> Z;
  uuid4 : W -> string * W
}.

Definition utcnow {W} `{Runtime W} : M W Z := fun w => (Return (utcnow_of w), w).

Definition fresh_uuid {W} `{Runtime W} : M W string :=
  fun w => let '(u, w') := uuid4 w in (Return u, w').

(** ** Strings *)

(** [str.isspace] on one ASCII character. *)
Definition isspace (c : ascii) : bool :=
  let n := nat_of_ascii c in
  ((9 <=? n)%nat && (n <=? 13)%nat) || ((28 <=? n)%nat && (n <=? 32)%nat).

Fixpoint lstrip (s : string) : string :=
  match s with
  | String c s' => if isspace c then lstrip s' else s
  | EmptyString => EmptyString
  end.

Fixpoint rstrip (s : string) : string :=
  match s with
  | String c s' =>
      match rstrip s' with
      | EmptyString => if isspace c then EmptyString else String c EmptyString
      | t => String c t
      end
  | EmptyString => EmptyString
  end.

(** [str.strip()] *)
Definition strip (s : string) : string := rstrip (lstrip s).

Definition lower_ascii (c : ascii) : ascii :=
  let n := nat_of_ascii c in
  if (65 <=? n)%nat && (n <=? 90)%nat then ascii_of_nat (n + 32)%nat else c.

(** [str.lower()], on ASCII letters. *)
Fixpoint lower (s : string) : string :=
  match s with
  | String c s' => String (lower_ascii c) (lower s')
  | EmptyString => EmptyString
  end.

(** [keyword in text] *)
Definition contains (keyword text : string) : bool :=
  match String.index 0%nat keyword text with
  | Some _ => true
  | None => false
  end.

(** ** backend/models/agent_models.py *)

Module AgentType.
Inductive t : Type :=
  CODE | INFRASTRUCTURE | TESTING | DEVOPS | DOCUMENTATION | SECURITY
| PLANNING | REVIEW.

Definition value (a : t) : string :=
  match a with
  | CODE => "code"
  | INFRASTRUCTURE => "infrastructure"
  | TESTING => "testing"
  | DEVOPS => "devops"
  | DOCUMENTATION => "documentation"
  | SECURITY => "security"
  | PLANNING => "planning"
  | REVIEW => "review"
  end.

Definition members : list t :=
  [CODE; INFRASTRUCTURE; TESTING; DEVOPS; DOCUMENTATION; SECURITY; PLANNING;
   REVIEW].

(** [AgentType(s)]: the member whose value is [s], if there is one. *)
Definition of_value (s : string) : option t :=
  List.find (fun a => String.eqb (value a) s) members.

#[global] Instance eq_dec : EqDecision t.
Proof. solve_decision. Defined.
End AgentType.

Module TaskStatus.
Inductive t : Type := PENDING | IN_PROGRESS | COMPLETED | FAILED | CANCELLED.

Definition value (s : t) : string :=
  match s with
  | PENDING => "pending"
  | IN_PROGRESS => "in_progress"
  | COMPLETED => "completed"
  | FAILED => "failed"
  | CANCELLED => "cancelled"
  end.

#[global] Instance eq_dec : EqDecision t.
Proof. solve_decision. Defined.
End TaskStatus.

Module IntentType.
Inductive t : Type :=
  CODE_GENERATION | CODE_REVIEW | CODE_REFACTORING | INFRASTRUCTURE_SETUP
| TESTING | DEPLOYMENT | DOCUMENTATION | DEBUGGING | SECURITY_SCAN
| EXPLANATION | PROJECT_SETUP.

Definition value (i : t) : string :=
  match i with
  | CODE_GENERATION => "code_generation"
  | CODE_REVIEW => "code_review"
  | CODE_REFACTORING => "refactoring"
  | INFRASTRUCTURE_SETUP => "infrastructure_setup"
  | TESTING => "testing"
  | DEPLOYMENT => "deployment"
  | DOCUMENTATION => "documentation"
  | DEBUGGING => "debugging"
  | SECURITY_SCAN => "security_scan"
  | EXPLANATION => "explanation"
  | PROJECT_SETUP => "project_setup"
  end.

Definition members : list t :=
  [CODE_GENERATION; CODE_REVIEW; CODE_REFACTORING; INFRASTRUCTURE_SETUP;
   TESTING; DEPLOYMENT; DOCUMENTATION; DEBUGGING; SECURITY_SCAN; EXPLANATION;
   PROJECT_SETUP].

Definition of_value (s : string) : option t :=
  List.find (fun i => String.eqb (value i) s) members.

#[global] Instance eq_dec : EqDecision t.
Proof. solve_decision. Defined.
End IntentType.

Module Priority.
Inductive t : Type := LOW | MEDIUM | HIGH | CRITICAL.

Definition value (p : t) : Z :=
  match p with LOW => 1 | MEDIUM => 5 | HIGH => 8 | CRITICAL => 10 end.
End Priority.

(** A field whose type is a [str] enum.  The models that set
    [use_enum_values=True] keep the member's value, a plain [str], when they
    are constructed; an assignment made later ([mark_completed],
    [mark_failed]) stores the member itself. *)
Inductive EnumField (E : Type) : Type :=
  | Value (e : E)
  | Member (e : E).
Arguments Value {E} e.
Arguments Member {E} e.

Definition enum_of {E} (f : EnumField E) : E :=
  match f with Value e => e | Member e => e end.

(** The location pydantic reports for a field whose validation failed. *)
Definition rejected {A} (field : string) (v : option A) : list string :=
  match v with Some _ => [] | None => [field] end.

(** [Dict[str, Any]], its values opaque. *)
Abbreviation Payload := (gmap string string).

Module ExecutionContext.
Record t : Type := {
  session_id : string;
  user_id : string;
  project_id : string;
  workspace_path : string;
  environment : string;
  language : option string;
  framework : option string;
  metadata : Payload
}.
End ExecutionContext.

Module TaskRequest.
Record t : Type := {
  id : string;
  intent : IntentType.t;
  description : string;
  context : ExecutionContext.t;
  parameters : Payload;
  priority : Priority.t;
  timeout : Z;
  created_at : Z;
  parent_task_id : option string;
  retry_count : Z;
  max_retries : Z
}.

Definition validate_description (v : string) : option string :=
  if bool_decide (v = "") || bool_decide (strip v = "") then None
  else Some (strip v).

Definition validate_timeout (v : Z) : option Z :=
  if v <? 1 then None else if 3600 <? v then None else Some v.

(** [TaskRequest(intent=..., description=..., context=...)]: the other
    fields take their defaults, [id] and [created_at] from their factories.
    An enum passed in is read by its value. *)
Definition new (id_ : string) (created_at_ : Z) (intent_ : string)
    (description_ : string) (context_ : ExecutionContext.t) : Outcome t :=
  match IntentType.of_value intent_, validate_description description_,
        validate_timeout 300 with
  | Some i, Some d, Some tm =>
      Return {| id := id_; intent := i; description := d;
                context := context_; parameters := ∅;
                priority := Priority.MEDIUM; timeout := tm;
                created_at := created_at_; parent_task_id := None;
                retry_count := 0; max_retries := 3 |}
  | i, d, tm =>
      Raise (ValidationError "TaskRequest"
               (rejected "intent" i ++ rejected "description" d ++
                rejected "timeout" tm))
  end.
End TaskRequest.

Module TaskResult.
Record t : Type := {
  task_id : string;
  agent_type : EnumField AgentType.t;
  status : EnumField TaskStatus.t;
  result : option Payload;
  error : option string;
  execution_time : Q;
  tokens_used : Z;
  cost : Q;
  confidence_score : Q;
  metadata : Payload;
  created_at : Z;
  completed_at : option Z
}.

Definition validate_execution_time (v : Q) : option Q :=
  if Qlt_le_dec v 0 then None else Some v.

(** [TaskResult(task_id=..., agent_type=..., status=..., result=...,
    error=..., execution_time=...)]; [created_at] from its factory. *)
Definition new (created_at_ : Z) (task_id_ : string) (agent_type_ : string)
    (status_ : TaskStatus.t) (result_ : option Payload)
    (error_ : option string) (execution_time_ : Q) : Outcome t :=
  match AgentType.of_value agent_type_,
        validate_execution_time execution_time_ with
  | Some a, Some et =>
      Return {| task_id := task_id_; agent_type := Value a;
                status := Value status_; result := result_; error := error_;
                execution_time := et; tokens_used := 0; cost := 0;
                confidence_score := 1; metadata := ∅;
                created_at := created_at_; completed_at := None |}
  | a, et =>
      Raise (ValidationError "TaskResult"
               (rejected "agent_type" a ++ rejected "execution_time" et))
  end.

Definition mark_completed (now : Z) (result_ : option Payload) (r : t) : t :=
  {| task_id := task_id r; agent_type := agent_type r;
     status := Member TaskStatus.COMPLETED;
     result := match result_ with
               | Some p => if bool_decide (p = ∅) then result r else Some p
               | None => result r
               end;
     error := error r; execution_time := execution_time r;
     tokens_used := tokens_used r; cost := cost r;
     confidence_score := confidence_score r; metadata := metadata r;
     created_at := created_at r; completed_at := Some now |}.

Definition mark_failed (now : Z) (error_ : string) (r : t) : t :=
  {| task_id := task_id r; agent_type := agent_type r;
     status := Member TaskStatus.FAILED; result := result r;
     error := Some error_; execution_time := execution_time r;
     tokens_used := tokens_used r; cost := cost r;
     confidence_score := confidence_score r; metadata := metadata r;
     created_at := created_at r; completed_at := Some now |}.
End TaskResult.

(** *** Planning models (Complete-Data-Models-Implementation.py and its
    pydantic-v2 twin, which agree on these two classes) *)

Module ExecutionStep.
Record t : Type := {
  id : string;
  agent_type : AgentType.t;
  task : TaskRequest.t;
  dependencies : list string;
  estimated_duration : Z;
  status : TaskStatus.t;
  retry_count : Z;
  max_retries : Z
}.

(** [all(dep_id in completed_steps for dep_id in self.dependencies)] *)
Definition can_execute (self : t) (completed_steps : gset string) : bool :=
  forallb (fun dep_id => bool_decide (dep_id ∈ completed_steps))
    (dependencies self).
End ExecutionStep.

Module ExecutionPlan.
Record t : Type := {
  id : string;
  original_task : TaskRequest.t;
  steps : list ExecutionStep.t;
  estimated_total_duration : Z;
  created_at : Z;
  started_at : option Z;
  completed_at : option Z;
  status : TaskStatus.t
}.

Definition is_ready (completed_step_ids : gset string)
    (step : ExecutionStep.t) : bool :=
  bool_decide (ExecutionStep.status step = TaskStatus.PENDING)
  && ExecutionStep.can_execute step completed_step_ids.

(** The loop of [get_ready_steps]: [ready_steps] grows by [append]. *)
Fixpoint ready_loop (completed_step_ids : gset string)
    (todo ready_steps : list ExecutionStep.t) : list ExecutionStep.t :=
  match todo with
  | [] => ready_steps
  | step :: todo' =>
      ready_loop completed_step_ids todo'
        (if is_ready completed_step_ids step then ready_steps ++ [step]
         else ready_steps)
  end.

Definition get_ready_steps (self : t) (completed_step_ids : gset string)
    : list ExecutionStep.t :=
  ready_loop completed_step_ids (steps self) [].

Definition is_completed (s : ExecutionStep.t) : bool :=
  bool_decide (ExecutionStep.status s = TaskStatus.COMPLETED).

(** [get_progress], the float division and product read in [Q]. *)
Definition get_progress (self : t) : Q :=
  match steps self with
  | [] => 0
  | _ =>
      let completed := length (List.filter is_completed (steps self)) in
      (inject_Z (Z.of_nat completed) / inject_Z (Z.of_nat (length (steps self))))
      * 100
  end.
End ExecutionPlan.

(** ** backend/agents/base/agent.py *)

Module BaseAgent.
(** An agent object: its declared type, its capability list and its two
    coroutines, which may read and change the world and may raise. *)
Record t (W : Type) : Type := {
  agent_type : AgentType.t;
  capabilities : list string;
  can_handle : TaskRequest.t -> M W bool;
  execute : TaskRequest.t -> M W TaskResult.t
}.
Arguments agent_type {W} _.
Arguments capabilities {W} _.
Arguments can_handle {W} _ _ _.
Arguments execute {W} _ _ _.

Definition get_capabilities {W} (self : t W) : list string :=
  capabilities self.
End BaseAgent.

(** ** backend/core/orchestration/agent_registry.py *)

Module AgentRegistry.
Section registry.
Context {W : Type}.

(** [self.agents : Dict[AgentType, BaseAgent]], in iteration order. *)
Definition t : Type := list (AgentType.t * BaseAgent.t W).

(** [AgentRegistry()] *)
Definition init : t := [].

(** [d[k] = v]: a key already present keeps its place and takes the new
    value; a new key goes last. *)
Fixpoint setitem (d : t) (k : AgentType.t) (v : BaseAgent.t W) : t :=
  match d with
  | [] => [(k, v)]
  | (k', v') :: d' =>
      if decide (k' = k) then (k', v) :: d' else (k', v') :: setitem d' k v
  end.

(** [d.get(k)] *)
Fixpoint getitem (d : t) (k : AgentType.t) : option (BaseAgent.t W) :=
  match d with
  | [] => None
  | (k', v') :: d' => if decide (k' = k) then Some v' else getitem d' k
  end.

(** [d.keys()] *)
Definition keys (d : t) : list AgentType.t := map fst d.

(** [d.values()] *)
Definition values (d : t) : list (BaseAgent.t W) := map snd d.

Definition register_agent (self : t) (agent : BaseAgent.t W) : t :=
  setitem self (BaseAgent.agent_type agent) agent.

Definition get_agent (self : t) (agent_type : AgentType.t)
    : option (BaseAgent.t W) :=
  getitem self agent_type.

(** The loop of [find_capable_agents] over [self.agents.values()]. *)
Fixpoint capable_loop (agents : list (BaseAgent.t W))
    (task : TaskRequest.t) (capable_agents : list (BaseAgent.t W))
    : M W (list (BaseAgent.t W)) :=
  match agents with
  | [] => ret capable_agents
  | agent :: agents' =>
      (b <- BaseAgent.can_handle agent task ;;
       capable_loop agents' task
         (if b : bool then capable_agents ++ [agent] else capable_agents))%M
  end.

Definition find_capable_agents (self : t) (task : TaskRequest.t)
    : M W (list (BaseAgent.t W)) :=
  capable_loop (values self) task [].

Definition get_all_capabilities (self : t)
    : list (AgentType.t * list string) :=
  map (fun '(agent_type, agent) =>
         (agent_type, BaseAgent.get_capabilities agent)) self.
(** The invariant of a registry: its keys are distinct, and each agent sits
    under its own capability type. *)
Definition well_keyed (self : t) : Prop :=
  NoDup (keys self)
  ∧ Forall (fun '(k, agent) => BaseAgent.agent_type agent = k) self.

(** The registry after a sequence of [register_agent] calls on a new one. *)
Definition registered (agents : list (BaseAgent.t W)) : t :=
  fold_left register_agent agents init.

(** The capability types of a sequence of registrations, each listed once,
    where it was first registered. *)
Definition first_registered (agents : list (BaseAgent.t W))
    : list AgentType.t :=
  fold_left
    (fun seen agent =>
       if decide (BaseAgent.agent_type agent ∈ seen) then seen
       else seen ++ [BaseAgent.agent_type agent])
    agents [].

(** The agent of a sequence of registrations that registered last under a
    capability type. *)
Definition last_registered (agents : list (BaseAgent.t W))
    (agent_type : AgentType.t) : option (BaseAgent.t W) :=
  List.find (fun agent => bool_decide (BaseAgent.agent_type agent = agent_type))
    (rev agents).
End registry.
Arguments t W : clear implicits.
End AgentRegistry.

(** ** backend/core/orchestration/intent_classifier.py *)

Module IntentClassifier.
(** The classifier's own [IntentType] enum. *)
Inductive IntentType : Type :=
  CODE_GENERATION | INFRASTRUCTURE_SETUP | TESTING | DOCUMENTATION
| SECURITY_SCAN.

Definition value (i : IntentType) : string :=
  match i with
  | CODE_GENERATION => "code_generation"
  | INFRASTRUCTURE_SETUP => "infrastructure_setup"
  | TESTING => "testing"
  | DOCUMENTATION => "documentation"
  | SECURITY_SCAN => "security_scan"
  end.

Definition intent_examples : list (IntentType * list string) :=
  [ (CODE_GENERATION,
     ["create a function"; "write code for"; "implement"; "generate"]);
    (INFRASTRUCTURE_SETUP,
     ["deploy to"; "create dockerfile"; "setup kubernetes"]);
    (TESTING, ["write tests"; "create unit tests"; "test coverage"]) ].

Fixpoint first_match (examples : list (IntentType * list string))
    (user_input_lower : string) : option IntentType :=
  match examples with
  | [] => None
  | (intent, keywords) :: examples' =>
      if existsb (fun keyword => contains keyword user_input_lower) keywords
      then Some intent
      else first_match examples' user_input_lower
  end.

Definition classify {W} (user_input : string) (context : ExecutionContext.t)
    : M W IntentType :=
  let user_input_lower := lower user_input in
  match first_match intent_examples user_input_lower with
  | Some intent => ret intent
  | None => ret CODE_GENERATION
  end.
End IntentClassifier.

(** ** backend/core/orchestration/task_planner.py *)

Module TaskPlanner.
(** The planner's own [ExecutionPlan] dataclass. *)
Record ExecutionPlan : Type := {
  id : string;
  original_task : TaskRequest.t;
  subtasks : list TaskRequest.t;
  dependencies : gmap string (list string);
  estimated_duration : Z
}.

Definition create_plan {W} (task : TaskRequest.t) : M W ExecutionPlan :=
  ret {| id := "plan-1"; original_task := task; subtasks := [task];
         dependencies := ∅; estimated_duration := 60 |}.

(** The ids of the plan's steps. *)
Definition step_ids (plan : ExecutionPlan) : list string :=
  map TaskRequest.id (subtasks plan).

(** The dependency relation the plan's map declares: [step] lists [dep]. *)
Definition depends_on (plan : ExecutionPlan) (step dep : string) : Prop :=
  ∃ deps, dependencies plan !! step = Some deps ∧ dep ∈ deps.

(** A step depends, through one edge or more, on itself. *)
Definition cyclic (plan : ExecutionPlan) : Prop :=
  ∃ step, tc (depends_on plan) step step.

(** An edge of the relation names an id that is no step of the plan. *)
Definition dangling (plan : ExecutionPlan) : Prop :=
  ∃ step dep,
    depends_on plan step dep ∧ (step ∉ step_ids plan ∨ dep ∉ step_ids plan).
End TaskPlanner.

(** ** backend/core/orchestration/execution_engine.py *)

Module ExecutionEngine.
Section engine.
Context {W : Type} `{Runtime W}.

(** [(datetime.utcnow() - start_time).total_seconds()] *)
Definition total_seconds (start_time now : Z) : Q :=
  Qmake (now - start_time) 1000000.

Definition execute_task (agent_registry : AgentRegistry.t W)
    (task : TaskRequest.t) : M W TaskResult.t :=
  (start_time <- utcnow ;;
   try_except
     (capable_agents <-
        AgentRegistry.find_capable_agents agent_registry task ;;
      match capable_agents with
      | [] =>
          now <- utcnow ;;
          lift (TaskResult.new now (TaskRequest.id task) "unknown"
                  TaskStatus.FAILED None (Some "No capable agents found")
                  0)
      | selected_agent :: _ => BaseAgent.execute selected_agent task
      end)
     (fun e =>
        now <- utcnow ;;
        let execution_time := total_seconds start_time now in
        created <- utcnow ;;
        lift (TaskResult.new created (TaskRequest.id task) "unknown"
                TaskStatus.FAILED None (Some (str e)) execution_time)))%M.

(** The loop of [execute_plan] over [plan.subtasks]. *)
Fixpoint plan_loop (agent_registry : AgentRegistry.t W)
    (subtasks : list TaskRequest.t) (results : list TaskResult.t)
    : M W (list TaskResult.t) :=
  match subtasks with
  | [] => ret results
  | task :: subtasks' =>
      (result <- execute_task agent_registry task ;;
       plan_loop agent_registry subtasks' (results ++ [result]))%M
  end.

Definition execute_plan (agent_registry : AgentRegistry.t W)
    (plan : TaskPlanner.ExecutionPlan) : M W (list TaskResult.t) :=
  plan_loop agent_registry (TaskPlanner.subtasks plan) [].

(** The tasks run one after the other, each in the world its predecessor
    left, and each returns its result. *)
Inductive runs (agent_registry : AgentRegistry.t W)
    : list TaskRequest.t → W → list TaskResult.t → W → Prop :=
  | runs_nil w : runs agent_registry [] w [] w
  | runs_cons task tasks w result w1 results w2 :
      execute_task agent_registry task w = (Return result, w1) →
      runs agent_registry tasks w1 results w2 →
      runs agent_registry (task :: tasks) w (result :: results) w2.
End engine.
End ExecutionEngine.

(** ** backend/core/orchestration/middleware.py *)

Module AgenticMiddleware.
(** A value of the response dictionary. *)
Inductive ResponseValue : Type :=
  | VStr (s : string)
  | VResult (r : option Payload)
  | VResults (rs : list TaskResult.t)
  | VTimestamp (t : Z).

Abbreviation Response := (gmap string ResponseValue).

(** The middleware object: the registry it shares with its planner and its
    engine, and the coroutines of its three components. *)
Record t (W : Type) : Type := {
  agent_registry : AgentRegistry.t W;
  classify : string -> ExecutionContext.t -> M W IntentClassifier.IntentType;
  create_plan :
    AgentRegistry.t W -> TaskRequest.t -> M W TaskPlanner.ExecutionPlan;
  execute_plan :
    AgentRegistry.t W -> TaskPlanner.ExecutionPlan -> M W (list TaskResult.t);
  execute_task : AgentRegistry.t W -> TaskRequest.t -> M W TaskResult.t
}.
Arguments agent_registry {W} _.
Arguments classify {W} _ _ _ _.
Arguments create_plan {W} _ _ _ _.
Arguments execute_plan {W} _ _ _ _.
Arguments execute_task {W} _ _ _ _.

(** The dictionary the [except] block of [process_request] returns. *)
Definition failed (e : Exn) (timestamp : Z) : Response :=
  {[ "error" := VStr (str e); "status" := VStr "failed";
     "timestamp" := VTimestamp timestamp ]}.

Section middleware.
Context {W : Type} `{Runtime W}.

(** [AgenticMiddleware()] *)
Definition init : t W :=
  {| agent_registry := AgentRegistry.init;
     classify := IntentClassifier.classify;
     create_plan := fun _ => TaskPlanner.create_plan;
     execute_plan := ExecutionEngine.execute_plan;
     execute_task := ExecutionEngine.execute_task |}.

Definition register_agent (self : t W) (agent : BaseAgent.t W) : t W :=
  {| agent_registry :=
       AgentRegistry.register_agent (agent_registry self) agent;
     classify := classify self;
     create_plan := create_plan self;
     execute_plan := execute_plan self;
     execute_task := execute_task self |}.

Definition _needs_planning (task : TaskRequest.t) : M W bool := ret false.

Definition _aggregate_results (results : list TaskResult.t)
    (plan : TaskPlanner.ExecutionPlan) : M W Response :=
  ret ({[ "status" := VStr "completed"; "results" := VResults results ]}).

(** [result.status.value]: only an enum member has the attribute. *)
Definition _format_single_result (result : TaskResult.t) : M W Response :=
  match TaskResult.status result with
  | Member s =>
      ret ({[ "status" := VStr (TaskStatus.value s);
              "result" := VResult (TaskResult.result result) ]})
  | Value _ => raise (AttributeError "'str' object has no attribute 'value'")
  end.

(** The [try] block of [process_request]. *)
Definition request_body (self : t W) (user_input : string)
    (context : ExecutionContext.t) : M W Response :=
  (intent <- classify self user_input context ;;
   task_id <- fresh_uuid ;;
   created <- utcnow ;;
   task <- lift (TaskRequest.new task_id created
                   (IntentClassifier.value intent) user_input context) ;;
   needs <- _needs_planning task ;;
   if needs : bool then
     plan <- create_plan self (agent_registry self) task ;;
     results <- execute_plan self (agent_registry self) plan ;;
     _aggregate_results results plan
   else
     result <- execute_task self (agent_registry self) task ;;
     _format_single_result result)%M.

(** The [except Exception as e] block. *)
Definition failed_response (e : Exn) : M W Response :=
  (now <- utcnow ;; ret (failed e now))%M.

Definition process_request (self : t W) (user_input : string)
    (context : ExecutionContext.t) : M W Response :=
  try_except (request_body self user_input context) failed_response.
End middleware.
End AgenticMiddleware.

(** ** A concrete world, for running the code

    The world of the examples: a clock, the uuids still to be issued, and the
    log of the tasks the agents were asked to execute, oldest first. *)

Module Sample.
Record World : Type := {
  clock : Z;
  entropy : list string;
  dispatched : list (AgentType.t * TaskRequest.t)
}.

#[global] Instance runtime : Runtime World := {|
  utcnow_of := clock;
  uuid4 w :=
    match entropy w with
    | [] => ("", w)
    | u :: us =>
        (u, {| clock := clock w; entropy := us; dispatched := dispatched w |})
    end
|}.

Definition world0 : World :=
  {| clock := 1700000000000000; entropy := ["uuid-1"; "uuid-2"];
     dispatched := [] |}.

Definition context0 : ExecutionContext.t :=
  {| ExecutionContext.session_id := "s1"; ExecutionContext.user_id := "u1";
     ExecutionContext.project_id := "p1";
     ExecutionContext.workspace_path := "/tmp/workspace";
     ExecutionContext.environment := "development";
     ExecutionContext.language := None; ExecutionContext.framework := None;
     ExecutionContext.metadata := ∅ |}.

Definition task0 : TaskRequest.t :=
  {| TaskRequest.id := "t0";
     TaskRequest.intent := IntentType.CODE_GENERATION;
     TaskRequest.description := "implement a parser";
     TaskRequest.context := context0; TaskRequest.parameters := ∅;
     TaskRequest.priority := Priority.MEDIUM; TaskRequest.timeout := 300;
     TaskRequest.created_at := 1700000000000000;
     TaskRequest.parent_task_id := None; TaskRequest.retry_count := 0;
     TaskRequest.max_retries := 3 |}.

Definition task1 : TaskRequest.t :=
  {| TaskRequest.id := "t1"; TaskRequest.intent := IntentType.TESTING;
     TaskRequest.description := "write tests";
     TaskRequest.context := context0; TaskRequest.parameters := ∅;
     TaskRequest.priority := Priority.HIGH; TaskRequest.timeout := 300;
     TaskRequest.created_at := 1700000000000001;
     TaskRequest.parent_task_id := None; TaskRequest.retry_count := 0;
     TaskRequest.max_retries := 3 |}.

(** An agent's [execute] starts: the dispatch is logged and 50ms pass. *)
Definition work (who : AgentType.t) (task : TaskRequest.t) : M World unit :=
  fun w =>
    (Return (),
     {| clock := clock w + 50000; entropy := entropy w;
        dispatched := dispatched w ++ [(who, task)] |}).

(** [return TaskResult(task_id=task.id, agent_type=self.agent_type, ...)] *)
Definition report (who : AgentType.t) (task : TaskRequest.t)
    (status : TaskStatus.t) (error : option string) : M World TaskResult.t :=
  (now <- utcnow ;;
   lift (TaskResult.new now (TaskRequest.id task) (AgentType.value who)
           status None error 0))%M.

Definition handles (intent : IntentType.t) (task : TaskRequest.t)
    : M World bool :=
  ret (bool_decide (TaskRequest.intent task = intent)).

(** Two code agents, told apart by their capability lists. *)
Definition coder : BaseAgent.t World :=
  {| BaseAgent.agent_type := AgentType.CODE;
     BaseAgent.capabilities := ["Generate Python code"];
     BaseAgent.can_handle := handles IntentType.CODE_GENERATION;
     BaseAgent.execute task :=
       (_ <- work AgentType.CODE task ;;
        report AgentType.CODE task TaskStatus.COMPLETED None)%M |}.

Definition coder' : BaseAgent.t World :=
  {| BaseAgent.agent_type := AgentType.CODE;
     BaseAgent.capabilities := ["Generate React components"];
     BaseAgent.can_handle := handles IntentType.CODE_GENERATION;
     BaseAgent.execute task :=
       (_ <- work AgentType.CODE task ;;
        report AgentType.CODE task TaskStatus.COMPLETED None)%M |}.

(** A reviewer that takes any task. *)
Definition reviewer : BaseAgent.t World :=
  {| BaseAgent.agent_type := AgentType.REVIEW;
     BaseAgent.capabilities := ["Review code"];
     BaseAgent.can_handle _ := ret true;
     BaseAgent.execute task :=
       (_ <- work AgentType.REVIEW task ;;
        report AgentType.REVIEW task TaskStatus.COMPLETED None)%M |}.

(** A code agent that reports a failure on its first two dispatches and
    succeeds from the third on. *)
Definition flaky : BaseAgent.t World :=
  {| BaseAgent.agent_type := AgentType.CODE;
     BaseAgent.capabilities := ["Generate Python code"];
     BaseAgent.can_handle := handles IntentType.CODE_GENERATION;
     BaseAgent.execute task :=
       (_ <- work AgentType.CODE task ;;
        fun w =>
          if (length (dispatched w) <=? 2)%nat
          then report AgentType.CODE task TaskStatus.FAILED
                 (Some "model overloaded") w
          else report AgentType.CODE task TaskStatus.COMPLETED None w)%M |}.

(** A code agent that marks its result completed before it returns it. *)
Definition finisher : BaseAgent.t World :=
  {| BaseAgent.agent_type := AgentType.CODE;
     BaseAgent.capabilities := ["Generate Python code"];
     BaseAgent.can_handle := handles IntentType.CODE_GENERATION;
     BaseAgent.execute task :=
       (_ <- work AgentType.CODE task ;;
        result <- report AgentType.CODE task TaskStatus.IN_PROGRESS None ;;
        now <- utcnow ;;
        ret (TaskResult.mark_completed now (Some {[ "code" := "pass" ]})
               result))%M |}.

(** A code agent whose [execute] raises. *)
Definition crashing : BaseAgent.t World :=
  {| BaseAgent.agent_type := AgentType.CODE;
     BaseAgent.capabilities := [];
     BaseAgent.can_handle := handles IntentType.CODE_GENERATION;
     BaseAgent.execute task :=
       (_ <- work AgentType.CODE task ;;
        raise (Exception "RuntimeError" "connection reset"))%M |}.

(** A plan of two subtasks, the second waiting for the first. *)
Definition two_step_plan : TaskPlanner.ExecutionPlan :=
  {| TaskPlanner.id := "plan-2"; TaskPlanner.original_task := task0;
     TaskPlanner.subtasks := [task0; task1];
     TaskPlanner.dependencies := {[ "t1" := ["t0"] ]};
     TaskPlanner.estimated_duration := 120 |}.

Definition step (id : string) (deps : list string) (status : TaskStatus.t)
    : ExecutionStep.t :=
  {| ExecutionStep.id := id; ExecutionStep.agent_type := AgentType.CODE;
     ExecutionStep.task := task0; ExecutionStep.dependencies := deps;
     ExecutionStep.estimated_duration := 60; ExecutionStep.status := status;
     ExecutionStep.retry_count := 0; ExecutionStep.max_retries := 3 |}.

Definition plan_of (steps : list ExecutionStep.t) : ExecutionPlan.t :=
  {| ExecutionPlan.id := "plan"; ExecutionPlan.original_task := task0;
     ExecutionPlan.steps := steps;
     ExecutionPlan.estimated_total_duration := 60;
     ExecutionPlan.created_at := 1700000000000000;
     ExecutionPlan.started_at := None; ExecutionPlan.completed_at := None;
     ExecutionPlan.status := TaskStatus.PENDING |}.
End Sample.

(** ** ASCII text

    [isspace], [strip] and [lower] above follow [str.isspace], [str.strip]
    and [str.lower] on ASCII characters, and a [string] stands for the
    Python text with the same characters when all of them are ASCII.
    Python also strips and lowers characters beyond ASCII; what is stated
    below about which texts are blank, or how a text lowers, is stated for
    ASCII text. *)

Definition is_ascii_char (c : ascii) : bool := (nat_of_ascii c <? 128)%nat.

(** [str.isascii()] *)
Fixpoint is_ascii (s : string) : bool :=
  match s with
  | String c s' => is_ascii_char c && is_ascii s'
  | EmptyString => true
  end.

(** ** More of the data models

    The constructors, the utility functions and the session models of
    Complete-Data-Models-Implementation.py (its pydantic-v2 twin and
    backend/models/agent_models.py agree on what they share). *)

Module agent_models.
(** [ExecutionContext(session_id=..., user_id=..., project_id=...,
    workspace_path=..., metadata=...)]; the validator of [workspace_path]
    is the one of [description]. *)
Definition ExecutionContext_init (session_id user_id project_id : string)
    (workspace_path : string) (metadata : Payload)
    : Outcome ExecutionContext.t :=
  match TaskRequest.validate_description workspace_path with
  | Some path =>
      Return {| ExecutionContext.session_id := session_id;
                ExecutionContext.user_id := user_id;
                ExecutionContext.project_id := project_id;
                ExecutionContext.workspace_path := path;
                ExecutionContext.environment := "development";
                ExecutionContext.language := None;
                ExecutionContext.framework := None;
                ExecutionContext.metadata := metadata |}
  | None => Raise (ValidationError "ExecutionContext" ["workspace_path"])
  end.

(** [create_execution_context]; its callers may leave out [user_id]
    (["default_user"]), [project_id] (["default_project"]) and
    [workspace_path] (["/tmp/workspace"]). *)
Definition create_execution_context (session_id user_id project_id : string)
    (workspace_path : string) (metadata : Payload)
    : Outcome ExecutionContext.t :=
  ExecutionContext_init session_id user_id project_id workspace_path metadata.

(** [create_task_request]: [TaskRequest(intent=..., description=...,
    context=..., parameters=..., priority=...)], [id] and [created_at] from
    their factories. *)
Definition create_task_request (id : string) (created_at : Z)
    (description : string) (context : ExecutionContext.t)
    (intent : IntentType.t) (priority : Priority.t) (parameters : Payload)
    : Outcome TaskRequest.t :=
  match TaskRequest.validate_description description,
        TaskRequest.validate_timeout 300 with
  | Some d, Some tm =>
      Return {| TaskRequest.id := id; TaskRequest.intent := intent;
                TaskRequest.description := d; TaskRequest.context := context;
                TaskRequest.parameters := parameters;
                TaskRequest.priority := priority; TaskRequest.timeout := tm;
                TaskRequest.created_at := created_at;
                TaskRequest.parent_task_id := None;
                TaskRequest.retry_count := 0; TaskRequest.max_retries := 3 |}
  | d, tm =>
      Raise (ValidationError "TaskRequest"
               (rejected "description" d ++ rejected "timeout" tm))
  end.

(** [create_task_result]: the result is constructed, and stamped when the
    status asked for is Completed. *)
Definition create_task_result {W} `{Runtime W} (task_id : string)
    (agent_type : AgentType.t) (status : TaskStatus.t)
    (result : option Payload) (error : option string) (execution_time : Q)
    : M W TaskResult.t :=
  (created <- utcnow ;;
   task_result <- lift (TaskResult.new created task_id
                          (AgentType.value agent_type) status result error
                          execution_time) ;;
   if decide (status = TaskStatus.COMPLETED) then
     now <- utcnow ;;
     ret {| TaskResult.task_id := TaskResult.task_id task_result;
            TaskResult.agent_type := TaskResult.agent_type task_result;
            TaskResult.status := TaskResult.status task_result;
            TaskResult.result := TaskResult.result task_result;
            TaskResult.error := TaskResult.error task_result;
            TaskResult.execution_time := TaskResult.execution_time task_result;
            TaskResult.tokens_used := TaskResult.tokens_used task_result;
            TaskResult.cost := TaskResult.cost task_result;
            TaskResult.confidence_score :=
              TaskResult.confidence_score task_result;
            TaskResult.metadata := TaskResult.metadata task_result;
            TaskResult.created_at := TaskResult.created_at task_result;
            TaskResult.completed_at := Some now |}
   else ret task_result)%M.

(** [not s.strip()] *)
Definition blank (s : string) : bool := bool_decide (strip s = "").

Definition validate_task_request (task : TaskRequest.t) : list string :=
  let errors := [] in
  let errors :=
    if blank (TaskRequest.description task)
    then errors ++ ["Task description cannot be empty"] else errors in
  let errors :=
    if (TaskRequest.timeout task <? 1) || (3600 <? TaskRequest.timeout task)
    then errors ++ ["Timeout must be between 1 and 3600 seconds"]
    else errors in
  let errors :=
    if blank (ExecutionContext.workspace_path (TaskRequest.context task))
    then errors ++ ["Workspace path cannot be empty"] else errors in
  errors.

Definition validate_execution_context (context : ExecutionContext.t)
    : list string :=
  let errors := [] in
  let errors :=
    if blank (ExecutionContext.session_id context)
    then errors ++ ["Session ID cannot be empty"] else errors in
  let errors :=
    if blank (ExecutionContext.user_id context)
    then errors ++ ["User ID cannot be empty"] else errors in
  let errors :=
    if blank (ExecutionContext.project_id context)
    then errors ++ ["Project ID cannot be empty"] else errors in
  let errors :=
    if blank (ExecutionContext.workspace_path context)
    then errors ++ ["Workspace path cannot be empty"] else errors in
  errors.
End agent_models.

Module AgentCapability.
(** The validator of [name]: the name is stripped, then lowered. *)
Definition validate_name (v : string) : option string :=
  if bool_decide (v = "") || bool_decide (strip v = "") then None
  else Some (lower (strip v)).
End AgentCapability.

Module LLMConfig.
Definition valid_providers : list string :=
  ["openai"; "anthropic"; "claude"; "deepseek"; "mock"].

(** The validator of [provider]. *)
Definition validate_provider (v : string) : option string :=
  if bool_decide (lower v ∈ valid_providers) then Some (lower v) else None.
End LLMConfig.

Module SessionContext.
Record t : Type := {
  session_id : string;
  user_id : string;
  project_id : string;
  created_at : Z;
  last_activity : Z;
  message_count : Z;
  active_agents : list AgentType.t;
  context_data : Payload
}.

(** [update_activity], at the time the clock shows. *)
Definition update_activity (now : Z) (self : t) : t :=
  {| session_id := session_id self; user_id := user_id self;
     project_id := project_id self; created_at := created_at self;
     last_activity := now; message_count := message_count self + 1;
     active_agents := active_agents self;
     context_data := context_data self |}.
End SessionContext.

Module MessageType.
Inductive t : Type :=
  USER_INPUT | AGENT_RESPONSE | SYSTEM_NOTIFICATION | ERROR | STATUS_UPDATE.
End MessageType.

Module AgentMessage.
Record t : Type := {
  id : string;
  from_agent : option AgentType.t;
  to_agent : option AgentType.t;
  message_type : MessageType.t;
  content : string;
  payload : Payload;
  timestamp : Z;
  session_id : string;
  priority : Priority.t;
  requires_response : bool
}.
End AgentMessage.

(** [l[start:]], Python's slice from a start that may be negative. *)
Definition slice_from {A} (l : list A) (start : Z) : list A :=
  let n := Z.of_nat (length l) in
  let first := if start <? 0 then Z.max (start + n) 0 else Z.min start n in
  drop (Z.to_nat first) l.

Module ConversationHistory.
Record t : Type := {
  session_id : string;
  messages : list AgentMessage.t;
  created_at : Z;
  updated_at : Z
}.


(** [self.messages[-limit:] if self.messages else []] *)
Definition get_recent_messages (self : t) (limit : Z)
    : list AgentMessage.t :=
  match messages self with
  | [] => []
  | _ => slice_from (messages self) (- limit)
  end.
End ConversationHistory.

(** ** backend/agents/code/code_agent.py *)

Module CodeGenerationAgent.
(** What the agent reads of the client's answer: its [content]. *)
Record MockResponse : Type := { content : string }.

(** What [json.loads] makes of a text: an object, [null], or another
    value. *)
Inductive Json : Type :=
  | JObject (p : Payload)
  | JNull
  | JOther.

Section agent.
Context {W : Type} `{Runtime W}.
(** [json.loads]; [None] stands for [json.JSONDecodeError]. *)
Variable json_loads : string → option Json.
(** [llm_client.chat_completion], when a client was given. *)
Variable llm_client : option (list Payload → M W MockResponse).

Definition capabilities : list string :=
  ["Generate Python code"; "Generate JavaScript/TypeScript code";
   "Generate API endpoints"; "Generate React components";
   "Code refactoring"].

Definition can_handle (task : TaskRequest.t) : M W bool :=
  ret (bool_decide (TaskRequest.intent task = IntentType.CODE_GENERATION)).

Definition chat_completion (messages : list Payload) : M W MockResponse :=
  match llm_client with
  | Some client => client messages
  | None =>
      raise (AttributeError
               "'NoneType' object has no attribute 'chat_completion'")
  end.

Definition execute (task : TaskRequest.t) : M W TaskResult.t :=
  try_except
    (let messages : list Payload :=
       [ {[ "role" := "system";
            "content" := "You are a code generation expert. Generate clean, well-documented code based on user requests." ]};
         {[ "role" := "user";
            "content" := TaskRequest.description task ]} ] in
     response <- chat_completion messages ;;
     let result_data :=
       match json_loads (content response) with
       | Some data => data
       | None =>
           JObject {[ "code" := content response; "language" := "python";
                      "explanation" := "Generated code based on your request." ]}
       end in
     created <- utcnow ;;
     lift (match result_data with
           | JObject p =>
               TaskResult.new created (TaskRequest.id task)
                 (AgentType.value AgentType.CODE) TaskStatus.COMPLETED
                 (Some p) None (3 # 2)
           | JNull =>
               TaskResult.new created (TaskRequest.id task)
                 (AgentType.value AgentType.CODE) TaskStatus.COMPLETED
                 None None (3 # 2)
           | JOther => Raise (ValidationError "TaskResult" ["result"])
           end))%M
    (fun e =>
       created <- utcnow ;;
       lift (TaskResult.new created (TaskRequest.id task)
               (AgentType.value AgentType.CODE) TaskStatus.FAILED None
               (Some (str e)) 0))%M.

(** [CodeGenerationAgent(llm_client)] *)
Definition init : BaseAgent.t W :=
  {| BaseAgent.agent_type := AgentType.CODE;
     BaseAgent.capabilities := capabilities;
     BaseAgent.can_handle := can_handle;
     BaseAgent.execute := execute |}.
End agent.
End CodeGenerationAgent.

(** ** backend/api/v1/middleware_api.py *)

Module middleware_api.
Record ChatMessage : Type := {
  message : string;
  session_id : string;
  user_id : string;
  project_id : string;
  workspace_path : string;
  parameters : Payload;
  stream : bool
}.

(** What an endpoint hands to the framework: its return value, or the
    [HTTPException] it raises. *)
Inductive Reply (A : Type) : Type :=
  | Responds (a : A)
  | HTTPException (status_code : Z) (detail : string).
Arguments Responds {A} a.
Arguments HTTPException {A} status_code detail.

Inductive ReplyValue : Type :=
  | RStr (s : string)
  | RResponse (r : AgenticMiddleware.Response).

Section api.
Context {W : Type} `{Runtime W}.

(** The [try] block of [chat]. *)
Definition chat_body (middleware : AgenticMiddleware.t W)
    (message_ : ChatMessage) : M W (gmap string ReplyValue) :=
  (context <- lift (agent_models.ExecutionContext_init (session_id message_)
                      (user_id message_) (project_id message_)
                      (workspace_path message_) ∅) ;;
   response <- AgenticMiddleware.process_request middleware
                 (message message_) context ;;
   ret ({[ "session_id" := RStr (session_id message_);
           "response" := RResponse response;
           "timestamp" := RStr "2024-01-01T00:00:00Z" ]}))%M.

(** [chat]; the global [middleware] is [None] until the application has
    started. *)
Definition chat (middleware : option (AgenticMiddleware.t W))
    (message_ : ChatMessage) (w : W) : Reply (gmap string ReplyValue) * W :=
  match middleware with
  | None => (HTTPException 503 "Middleware not initialized", w)
  | Some middleware =>
      match chat_body middleware message_ w with
      | (Return reply, w') => (Responds reply, w')
      | (Raise e, w') => (HTTPException 500 (str e), w')
      end
  end.

(** [list_agents]: the list under ["agents"], each entry the value of its
    ["type"] and its ["capabilities"]. *)
Definition list_agents (middleware : option (AgenticMiddleware.t W))
    : list (string * list string) :=
  match middleware with
  | None => []
  | Some middleware =>
      let capabilities :=
        AgentRegistry.get_all_capabilities
          (AgenticMiddleware.agent_registry middleware) in
      map (fun '(agent_type, caps) => (AgentType.value agent_type, caps))
        capabilities
  end.
End api.
End middleware_api.

(** ** More of the concrete world *)

Module Fixture.
Import Sample.

(** [json.loads] on the two texts the fixture's clients answer. *)
Definition json_loads (text : string) : option CodeGenerationAgent.Json :=
  if bool_decide (text = "{}") then Some (CodeGenerationAgent.JObject ∅)
  else if bool_decide (text = "[]") then Some CodeGenerationAgent.JOther
  else None.

(** A client that answers with plain text, after 50ms. *)
Definition llm_text (messages : list Payload)
    : M World CodeGenerationAgent.MockResponse :=
  (_ <- work AgentType.CODE task0 ;;
   ret {| CodeGenerationAgent.content := "print('hi')" |})%M.

(** A client that is out of reach. *)
Definition llm_down (messages : list Payload)
    : M World CodeGenerationAgent.MockResponse :=
  raise (Exception "ConnectionError" "connection refused").

(** An agent whose [can_handle] raises. *)
Definition moody : BaseAgent.t World :=
  {| BaseAgent.agent_type := AgentType.TESTING;
     BaseAgent.capabilities := [];
     BaseAgent.can_handle _ := raise (Exception "RuntimeError" "not now");
     BaseAgent.execute task :=
       report AgentType.TESTING task TaskStatus.COMPLETED None |}.

Definition chat_message (text path : string) : middleware_api.ChatMessage :=
  {| middleware_api.message := text; middleware_api.session_id := "s1";
     middleware_api.user_id := "default_user";
     middleware_api.project_id := "default_project";
     middleware_api.workspace_path := path;
     middleware_api.parameters := ∅; middleware_api.stream := false |}.

Definition note (id text : string) : AgentMessage.t :=
  {| AgentMessage.id := id; AgentMessage.from_agent := None;
     AgentMessage.to_agent := None;
     AgentMessage.message_type := MessageType.USER_INPUT;
     AgentMessage.content := text; AgentMessage.payload := ∅;
     AgentMessage.timestamp := 1700000000000000;
     AgentMessage.session_id := "s1";
     AgentMessage.priority := Priority.MEDIUM;
     AgentMessage.requires_response := false |}.

Definition history (messages : list AgentMessage.t) : ConversationHistory.t :=
  {| ConversationHistory.session_id := "s1";
     ConversationHistory.messages := messages;
     ConversationHistory.created_at := 1700000000000000;
     ConversationHistory.updated_at := 1700000000000000 |}.
End Fixture.

(** ** A task with another retry count and retry budget *)

Module Retry.
(** The task with [task.retry_count] and [task.max_retries] set. *)
Definition with_retries (task : TaskRequest.t) (retry_count max_retries : Z)
    : TaskRequest.t :=
  {| TaskRequest.id := TaskRequest.id task;
     TaskRequest.intent := TaskRequest.intent task;
     TaskRequest.description := TaskRequest.description task;
     TaskRequest.context := TaskRequest.context task;
     TaskRequest.parameters := TaskRequest.parameters task;
     TaskRequest.priority := TaskRequest.priority task;
     TaskRequest.timeout := TaskRequest.timeout task;
     TaskRequest.created_at := TaskRequest.created_at task;
     TaskRequest.parent_task_id := TaskRequest.parent_task_id task;
     TaskRequest.retry_count := retry_count;
     TaskRequest.max_retries := max_retries |}.
End Retry.

(** ** The keywords of the classifier, intent by intent *)

Module Keywords.
Import IntentClassifier.

#[global] Instance IntentType_eq_dec : EqDecision IntentType.
Proof. solve_decision. Defined.

(** The keywords [intent_examples] lists for an intent. *)
Definition keywords (intent : IntentType) : list string :=
  flat_map (fun '(i, ks) => if decide (i = intent) then ks else [])
    intent_examples.

(** The lowered input contains a keyword of the intent. *)
Definition mentions (intent : IntentType) (user_input : string) : bool :=
  existsb (fun keyword => contains keyword (lower user_input))
    (keywords intent).
End Keywords.

(** * Properties *)

(** ** The planning models *)

Module ExecutionPlan_facts.
Import ExecutionPlan.

Lemma ready_loop_spec completed todo ready_steps :
  ready_loop completed todo ready_steps
  = ready_steps ++ List.filter (is_ready completed) todo.
Proof.
  revert ready_steps.
  induction todo as [|step todo IH]; intros ready_steps; simpl.
  - by rewrite app_nil_r.
  - rewrite IH. destruct (is_ready completed step); simpl.
    + by rewrite <- app_assoc.
    + done.
Qed.

Lemma get_ready_steps_filter plan completed :
  get_ready_steps plan completed
  = List.filter (is_ready completed) (steps plan).
Proof. unfold get_ready_steps. by rewrite ready_loop_spec. Qed.

Lemma can_execute_spec step (completed : gset string) :
  ExecutionStep.can_execute step completed = true
  ↔ ∀ dep_id, dep_id ∈ ExecutionStep.dependencies step → dep_id ∈ completed.
Proof.
  unfold ExecutionStep.can_execute. rewrite forallb_forall. split.
  - intros Hall dep Hin. apply list_elem_of_In in Hin.
    specialize (Hall dep Hin). by apply bool_decide_eq_true in Hall.
  - intros Hall dep Hin. apply bool_decide_eq_true, Hall.
    by apply list_elem_of_In.
Qed.

Lemma is_ready_spec completed step :
  is_ready completed step = true
  ↔ ExecutionStep.status step = TaskStatus.PENDING
    ∧ ∀ dep_id, dep_id ∈ ExecutionStep.dependencies step → dep_id ∈ completed.
Proof.
  unfold is_ready. rewrite andb_true_iff, bool_decide_eq_true.
  by rewrite can_execute_spec.
Qed.

(** C3.  A step of the plan is returned by [get_ready_steps] exactly when
    its status is Pending and every one of its dependency ids belongs to
    the set of completed ids. *)
Theorem get_ready_steps_iff (plan : t) (completed : gset string)
    (step : ExecutionStep.t) :
  step ∈ get_ready_steps plan completed
  ↔ step ∈ steps plan
    ∧ ExecutionStep.status step = TaskStatus.PENDING
    ∧ ∀ dep_id, dep_id ∈ ExecutionStep.dependencies step → dep_id ∈ completed.
Proof.
  rewrite get_ready_steps_filter, list_elem_of_In, filter_In.
  by rewrite <- list_elem_of_In, is_ready_spec.
Qed.

(** The ready steps come in the order of the plan. *)
Lemma get_ready_steps_sublist plan completed :
  sublist (get_ready_steps plan completed) (steps plan).
Proof.
  rewrite get_ready_steps_filter.
  induction (steps plan) as [|s l IH]; simpl; [constructor|].
  destruct (is_ready completed s); by constructor.
Qed.

Lemma completed_count_le (l : list ExecutionStep.t) :
  (length (List.filter is_completed l) <= length l)%nat.
Proof. induction l as [|s l IH]; simpl; [lia|]. destruct (is_completed s); simpl; lia. Qed.

Lemma completed_count_full (l : list ExecutionStep.t) :
  length (List.filter is_completed l) = length l
  ↔ Forall (fun s => ExecutionStep.status s = TaskStatus.COMPLETED) l.
Proof.
  induction l as [|s l IH]; simpl.
  - split; [constructor|done].
  - pose proof (completed_count_le l) as Hle.
    unfold is_completed at 1. case_bool_decide as Hs; simpl.
    + split.
      * intros Hlen. constructor; [done|]. apply IH. lia.
      * intros Hall. inversion Hall; subst. f_equal. by apply IH.
    + split; [lia|]. intros Hall. by inversion Hall.
Qed.

(** The percentage of [c] out of [n], as [get_progress] computes it. *)
Lemma percentage_bounds (c n : Z) :
  (0 <= c <= n)%Z → (0 < n)%Z →
  (0 <= inject_Z c / inject_Z n * 100 <= 100)%Q
  ∧ ((inject_Z c / inject_Z n * 100 == 100)%Q ↔ c = n).
Proof.
  intros Hc Hn. destruct n as [|p|p]; try lia.
  unfold Qdiv, Qinv, Qmult, Qle, Qeq, inject_Z; simpl.
  repeat split; try lia.
Qed.

(** C2, as the code has it.  For every plan the progress lies in
    [[0,100]]; it is 100 exactly when the plan has at least one step and
    every step is Completed; a plan without steps has progress 0. *)
Theorem get_progress_spec (plan : t) :
  (0 <= get_progress plan <= 100)%Q
  ∧ ((get_progress plan == 100)%Q
     ↔ steps plan ≠ []
       ∧ Forall (fun s => ExecutionStep.status s = TaskStatus.COMPLETED)
           (steps plan))
  ∧ (steps plan = [] → (get_progress plan == 0)%Q).
Proof.
  unfold get_progress. destruct (steps plan) as [|s l] eqn:Hsteps.
  - repeat split; try done. intros [? _]. done.
  - set (all := s :: l).
    pose proof (completed_count_le all) as Hle.
    destruct (percentage_bounds
                (Z.of_nat (length (List.filter is_completed all)))
                (Z.of_nat (length all))) as [Hrange Hfull];
      [lia | simpl; lia |].
    split; [exact Hrange|]. split; [|done].
    rewrite Hfull, Nat2Z.inj_iff, completed_count_full.
    split; [by intros ? | by intros [_ ?]].
Qed.

(** C2, as the specification has it, fails on the plan without steps:
    every step of it is Completed, vacuously, and its progress is 0. *)
Lemma get_progress_empty_plan :
  ¬ ((get_progress (Sample.plan_of []) == 100)%Q
     ↔ Forall (fun s => ExecutionStep.status s = TaskStatus.COMPLETED)
         (steps (Sample.plan_of []))).
Proof.
  intros [_ Hall]. assert (get_progress (Sample.plan_of []) == 100)%Q as H100.
  { apply Hall. constructor. }
  discriminate H100.
Qed.
End ExecutionPlan_facts.

(** ** The capability registry *)

Module AgentRegistry_facts.
Import AgentRegistry.

Section registry.
Context {W : Type}.
Implicit Types (d self : t W) (agent : BaseAgent.t W) (k : AgentType.t).
Implicit Types (agents : list (BaseAgent.t W)).

Lemma getitem_setitem d k agent : getitem (setitem d k agent) k = Some agent.
Proof.
  induction d as [|[k' v'] d IH]; simpl.
  - by rewrite decide_True.
  - destruct (decide (k' = k)) as [->|Hne]; simpl.
    + by rewrite decide_True.
    + by rewrite decide_False.
Qed.

Lemma getitem_setitem_ne d k k' agent :
  k ≠ k' → getitem (setitem d k agent) k' = getitem d k'.
Proof.
  intros Hne. induction d as [|[k0 v0] d IH]; simpl.
  - by rewrite decide_False.
  - destruct (decide (k0 = k)) as [->|Hk0]; simpl.
    + by rewrite !decide_False.
    + by rewrite IH.
Qed.

Lemma keys_setitem d k agent :
  keys (setitem d k agent) = if decide (k ∈ keys d) then keys d else keys d ++ [k].
Proof.
  induction d as [|[k' v'] d IH]; simpl.
  - done.
  - destruct (decide (k' = k)) as [->|Hne]; simpl.
    + rewrite decide_True; [done | left].
    + fold (keys (setitem d k agent)). rewrite IH. fold (keys d).
      destruct (decide (k ∈ keys d)) as [Hin|Hout].
      * rewrite decide_True; [done | by right].
      * rewrite decide_False; [done|].
        intros Hin. apply elem_of_cons in Hin as [?|?]; congruence.
Qed.

Lemma getitem_None d k : getitem d k = None ↔ k ∉ keys d.
Proof.
  induction d as [|[k' v'] d IH]; simpl.
  - split; [intros _; apply not_elem_of_nil | done].
  - fold (keys d). rewrite not_elem_of_cons.
    destruct (decide (k' = k)) as [->|Hne].
    + split; [done | by intros [? _]].
    + rewrite IH. split; [by intros ? | by intros [_ ?]].
Qed.

Lemma length_setitem_present d k agent :
  k ∈ keys d → length (setitem d k agent) = length d.
Proof.
  intros Hin. rewrite <- !(length_map fst). fold (keys (setitem d k agent)).
  fold (keys d). rewrite keys_setitem. by rewrite decide_True.
Qed.

(** What [setitem] does to the values: the agent under [k] gives way. *)
Lemma values_setitem d k agent :
  NoDup (keys d) →
  values (setitem d k agent)
  = if decide (k ∈ keys d)
    then map (fun '(k', v') => if decide (k' = k) then agent else v') d
    else values d ++ [agent].
Proof.
  induction d as [|[k' v'] d IH]; intros Hnd; simpl.
  - done.
  - fold (keys d) in *. apply NoDup_cons in Hnd as [Hk' Hnd].
    destruct (decide (k' = k)) as [->|Hne]; simpl.
    + rewrite decide_True by left. f_equal.
      unfold values. apply map_ext_in. intros [k0 v0] Hin.
      rewrite decide_False; [done|]. intros ->. apply Hk'.
      apply list_elem_of_In. by apply (in_map fst) in Hin.
    + fold (values (setitem d k agent)). rewrite (IH Hnd). fold (values d).
      destruct (decide (k ∈ keys d)) as [Hin|Hout].
      * rewrite decide_True; [done | by right].
      * rewrite decide_False; [done|].
        intros Hin. apply elem_of_cons in Hin as [?|?]; congruence.
Qed.

Lemma well_keyed_init : well_keyed (@init W).
Proof. split; constructor. Qed.

Lemma well_keyed_register self agent :
  well_keyed self → well_keyed (register_agent self agent).
Proof.
  intros [Hnd Hown]. unfold register_agent. split.
  - rewrite keys_setitem. destruct (decide _) as [|Hout]; [done|].
    apply NoDup_app. split_and!; [done | | apply NoDup_singleton].
    intros k Hk Hk'. apply list_elem_of_singleton in Hk'. by subst.
  - clear Hnd. induction self as [|[k' v'] self IH]; simpl.
    + by repeat constructor.
    + apply Forall_cons in Hown as [Hk' Hown].
      destruct (decide _) as [Heq|Hne]; constructor; auto.
Qed.

Lemma well_keyed_registered_from self agents :
  well_keyed self → well_keyed (fold_left register_agent agents self).
Proof.
  revert self. induction agents as [|agent agents IH]; intros self Hwk; simpl.
  - done.
  - by apply IH, well_keyed_register.
Qed.

Lemma well_keyed_registered agents : well_keyed (registered agents).
Proof. apply well_keyed_registered_from, well_keyed_init. Qed.

Lemma registered_snoc agents agent :
  registered (agents ++ [agent]) = register_agent (registered agents) agent.
Proof. unfold registered. by rewrite fold_left_app. Qed.

Lemma first_registered_snoc agents agent :
  first_registered (agents ++ [agent])
  = if decide (BaseAgent.agent_type agent ∈ first_registered agents)
    then first_registered agents
    else first_registered agents ++ [BaseAgent.agent_type agent].
Proof. unfold first_registered. by rewrite fold_left_app. Qed.

(** The registry lists the capability types by first registration... *)
Lemma keys_registered agents :
  keys (registered agents) = first_registered agents.
Proof.
  induction agents as [|agent agents IH] using rev_ind; [done|].
  rewrite registered_snoc, first_registered_snoc. unfold register_agent.
  by rewrite keys_setitem, IH.
Qed.

(** ... and holds, under each, the agent that registered last. *)
Lemma get_agent_registered agents k :
  get_agent (registered agents) k = last_registered agents k.
Proof.
  unfold get_agent, last_registered.
  induction agents as [|agent agents IH] using rev_ind; [done|].
  rewrite registered_snoc, rev_app_distr. simpl. unfold register_agent.
  case_bool_decide as Hk.
  - subst k. apply getitem_setitem.
  - by rewrite getitem_setitem_ne.
Qed.

(** When no capability type registers twice the registry holds the agents
    as they registered. *)
Lemma values_registered_distinct agents :
  NoDup (map BaseAgent.agent_type agents) → values (registered agents) = agents.
Proof.
  induction agents as [|agent agents IH] using rev_ind; [done|].
  rewrite map_app. simpl. intros Hnd. apply NoDup_app in Hnd as (Hnd & Hfresh & _).
  rewrite registered_snoc. unfold register_agent.
  rewrite values_setitem by apply well_keyed_registered.
  rewrite decide_False.
  - by rewrite IH.
  - rewrite keys_registered. intros Hin.
    assert (BaseAgent.agent_type agent ∈ map BaseAgent.agent_type agents) as Hin'.
    { clear -Hin. revert Hin.
      induction agents as [|a agents IH] using rev_ind; [done|].
      rewrite first_registered_snoc, map_app, elem_of_app. simpl.
      destruct (decide _) as [|Hout]; [by left; apply IH|].
      rewrite elem_of_app, list_elem_of_singleton.
      intros [Hin|Heq]; [left; by apply IH | by right]. }
    apply (Hfresh _ Hin'). left.
Qed.
Lemma keys_values self :
  well_keyed self → map BaseAgent.agent_type (values self) = keys self.
Proof.
  intros [_ Hown]. unfold values, keys. rewrite map_map.
  apply map_ext_in. intros [k agent] Hin.
  rewrite Forall_forall in Hown. apply list_elem_of_In in Hin.
  exact (Hown _ Hin).
Qed.

(** With agents whose [can_handle] is a predicate [p] on the task, the
    loop appends, in the order it meets them, the agents that satisfy it. *)
Lemma capable_loop_pure (p : BaseAgent.t W → bool) task agents capable w :
  Forall (fun agent => ∀ w', BaseAgent.can_handle agent task w' = (Return (p agent), w'))
    agents →
  capable_loop agents task capable w
  = (Return (capable ++ List.filter p agents), w).
Proof.
  revert capable. induction agents as [|agent agents IH]; intros capable Hpure.
  - simpl. by rewrite app_nil_r.
  - apply Forall_cons in Hpure as [Hagent Hpure]. simpl. unfold bind.
    rewrite Hagent, (IH _ Hpure). destruct (p agent); [|done].
    by rewrite <- app_assoc.
Qed.

(** C7, as the code has it.  Registering an agent whose capability type is
    already taken replaces the agent registered under it: the type then
    resolves to the new agent, the registry keeps its keys and their order,
    agents of other types stay, and no other agent of that type remains. *)
Theorem register_agent_replaces agents (old new : BaseAgent.t W) :
  get_agent (registered agents) (BaseAgent.agent_type new) = Some old →
  get_agent (register_agent (registered agents) new) (BaseAgent.agent_type new)
  = Some new
  ∧ keys (register_agent (registered agents) new) = keys (registered agents)
  ∧ (∀ k, k ≠ BaseAgent.agent_type new →
          get_agent (register_agent (registered agents) new) k
          = get_agent (registered agents) k)
  ∧ (∀ agent, agent ∈ values (register_agent (registered agents) new) →
              agent = new
              ∨ BaseAgent.agent_type agent ≠ BaseAgent.agent_type new).
Proof.
  intros Hold.
  assert (BaseAgent.agent_type new ∈ keys (registered agents)) as Hin.
  { destruct (decide (BaseAgent.agent_type new ∈ keys (registered agents)));
      [done|].
    apply getitem_None in n. unfold get_agent in Hold. congruence. }
  pose proof (well_keyed_registered agents) as [Hnd Hown].
  unfold register_agent, get_agent. split_and!.
  - apply getitem_setitem.
  - rewrite keys_setitem. by rewrite decide_True.
  - intros k Hk. by apply getitem_setitem_ne.
  - intros agent. rewrite (values_setitem _ _ _ Hnd), decide_True by done.
    rewrite list_elem_of_fmap. intros ([k v] & -> & Hkv).
    destruct (decide _) as [|Hne]; [by left|]. right.
    rewrite Forall_forall in Hown. by rewrite (Hown _ Hkv).
Qed.

(** C8, as the code has it.  With agents whose [can_handle] is a predicate
    on the task, [find_capable_agents] returns the registered agents that
    satisfy it, in the registry's order, which lists the capability types
    by first registration and is the order of registration when no type
    registers twice; it returns the empty list when no agent satisfies it. *)
Theorem find_capable_agents_spec agents task (p : BaseAgent.t W → bool) w :
  Forall (fun agent => ∀ w', BaseAgent.can_handle agent task w' = (Return (p agent), w'))
    (values (registered agents)) →
  find_capable_agents (registered agents) task w
  = (Return (List.filter p (values (registered agents))), w)
  ∧ map BaseAgent.agent_type (values (registered agents))
    = first_registered agents
  ∧ (NoDup (map BaseAgent.agent_type agents) →
     values (registered agents) = agents)
  ∧ (Forall (fun agent => p agent = false) (values (registered agents)) →
     find_capable_agents (registered agents) task w = (Return [], w)).
Proof.
  intros Hpure. unfold find_capable_agents.
  rewrite (capable_loop_pure p _ _ _ _ Hpure). simpl. split_and!.
  - done.
  - rewrite keys_values by apply well_keyed_registered. apply keys_registered.
  - apply values_registered_distinct.
  - intros Hnone. f_equal. f_equal. clear Hpure.
    induction (values (registered agents)) as [|agent l IH]; simpl; [done|].
    apply Forall_cons in Hnone as [Hp Hnone]. rewrite Hp. by apply IH.
Qed.
End registry.

(** A run of C7's theorem: the second code agent takes the first one's
    place. *)
Lemma register_agent_replaces_run :
  get_agent (registered [Sample.coder; Sample.reviewer])
    AgentType.CODE = Some Sample.coder
  ∧ get_agent
      (register_agent (registered [Sample.coder; Sample.reviewer]) Sample.coder')
      AgentType.CODE = Some Sample.coder'.
Proof.
  split; [reflexivity|].
  exact (proj1 (register_agent_replaces [Sample.coder; Sample.reviewer]
                  Sample.coder Sample.coder' eq_refl)).
Defined.

(** C7, as the specification has it, fails: after two code agents have
    registered, the first is no longer in the registry. *)
Lemma register_agent_drops_earlier :
  ¬ (Sample.coder ∈ values (registered [Sample.coder; Sample.coder'])
     ∧ Sample.coder' ∈ values (registered [Sample.coder; Sample.coder'])).
Proof.
  intros [Hfirst _]. change (Sample.coder ∈ [Sample.coder']) in Hfirst.
  apply list_elem_of_singleton in Hfirst. discriminate Hfirst.
Qed.

(** A run of C8's theorem: every agent takes the task, and the agents come
    back in the registry's order. *)
Lemma find_capable_agents_run :
  find_capable_agents
    (registered [Sample.coder; Sample.reviewer; Sample.coder'])
    Sample.task0 Sample.world0
  = (Return [Sample.coder'; Sample.reviewer], Sample.world0).
Proof.
  apply (find_capable_agents_spec
           [Sample.coder; Sample.reviewer; Sample.coder'] Sample.task0
           (fun _ => true) Sample.world0).
  repeat constructor.
Defined.

(** C8, as the specification has it, fails: the agents returned are not in
    the order in which they registered. *)
Lemma find_capable_agents_not_in_registration_order :
  find_capable_agents
    (registered [Sample.coder; Sample.reviewer; Sample.coder'])
    Sample.task0 Sample.world0
  = (Return [Sample.coder'; Sample.reviewer], Sample.world0)
  ∧ ¬ sublist [Sample.coder'; Sample.reviewer]
        [Sample.coder; Sample.reviewer; Sample.coder'].
Proof.
  split; [reflexivity|]. intros Hsub.
  apply sublist_cons_r in Hsub as [Hsub|(l & Heq & _)]; [|discriminate Heq].
  apply sublist_cons_r in Hsub as [Hsub|(l & Heq & _)]; [|discriminate Heq].
  apply sublist_cons_r in Hsub as [Hsub|(l & Heq & Hsub)].
  - by apply sublist_nil_r in Hsub.
  - injection Heq as <-. by apply sublist_nil_r in Hsub.
Qed.
End AgentRegistry_facts.

(** ** The task planner *)

Module TaskPlanner_facts.
Import TaskPlanner.

Lemma no_edge_acyclic plan :
  (∀ step dep, ¬ depends_on plan step dep) → ¬ cyclic plan.
Proof.
  intros Hnone [step Hloop].
  destruct Hloop as [x y Hedge|x y z Hedge _]; exact (Hnone _ _ Hedge).
Qed.

Lemma no_edge_not_dangling plan :
  (∀ step dep, ¬ depends_on plan step dep) → ¬ dangling plan.
Proof. intros Hnone (step & dep & Hedge & _). exact (Hnone _ _ Hedge). Qed.

(** For every task request [create_plan] returns, and the plan it returns
    has the request as its only step and declares no dependency: its
    dependency relation is neither cyclic nor dangling.  The planner
    decomposes no request, validates nothing and raises nothing. *)
Theorem create_plan_acyclic {W : Type} (task : TaskRequest.t) (w : W) :
  ∃ plan,
    create_plan task w = (Return plan, w)
    ∧ subtasks plan = [task]
    ∧ (∀ step dep, ¬ depends_on plan step dep)
    ∧ ¬ cyclic plan
    ∧ ¬ dangling plan.
Proof.
  eexists. split; [reflexivity|].
  assert (∀ step dep,
            ¬ depends_on
                {| id := "plan-1"; original_task := task; subtasks := [task];
                   dependencies := ∅; estimated_duration := 60 |} step dep)
    as Hnone.
  { intros step dep (deps & Hlookup & _). simpl in Hlookup.
    by rewrite lookup_empty in Hlookup. }
  split_and!; [done | exact Hnone | by apply no_edge_acyclic
              | by apply no_edge_not_dangling].
Qed.
End TaskPlanner_facts.

(** ** The execution engine *)

Module ExecutionEngine_facts.
Import ExecutionEngine.

(** No member of [AgentType] has the value ["unknown"]: the constructor
    rejects the field whatever the other arguments are. *)
Lemma TaskResult_new_unknown now task_id status result error execution_time :
  TaskResult.new now task_id "unknown" status result error execution_time
  = Raise (ValidationError "TaskResult"
             ("agent_type"
              :: rejected "execution_time"
                   (TaskResult.validate_execution_time execution_time))).
Proof.
  unfold TaskResult.new.
  change (AgentType.of_value "unknown") with (@None AgentType.t).
  by destruct (TaskResult.validate_execution_time execution_time).
Qed.

Section engine.
Context {W : Type} `{Runtime W}.
Implicit Types (registry : AgentRegistry.t W) (task : TaskRequest.t) (w : W).

(** What the [except] block of [execute_task] does with an exception. *)
Lemma handler_raises start_time task e w :
  (now <- utcnow ;;
   let execution_time := total_seconds start_time now in
   created <- utcnow ;;
   lift (TaskResult.new created (TaskRequest.id task) "unknown"
           TaskStatus.FAILED None (Some (str e)) execution_time))%M w
  = (Raise (ValidationError "TaskResult"
              ("agent_type"
               :: rejected "execution_time"
                    (TaskResult.validate_execution_time
                       (total_seconds start_time (utcnow_of w))))), w).
Proof. unfold bind, utcnow, lift. simpl. by rewrite TaskResult_new_unknown. Qed.

(** Whatever result the selected agent returns, a Failed one too, is the
    result of [execute_task]. *)
Lemma execute_task_agent_returns registry task w selected_agent others w1
    (result : TaskResult.t) w2 :
  AgentRegistry.find_capable_agents registry task w
  = (Return (selected_agent :: others), w1) →
  BaseAgent.execute selected_agent task w1 = (Return result, w2) →
  execute_task registry task w = (Return result, w2).
Proof.
  intros Hfind Hexec. unfold execute_task, bind, try_except, utcnow. simpl.
  by rewrite Hfind, Hexec.
Qed.

(** When no agent is capable the result the engine builds is rejected, in
    the [try] block and again in the [except] block. *)
Lemma execute_task_no_capable_agent registry task w w1 :
  AgentRegistry.find_capable_agents registry task w = (Return [], w1) →
  execute_task registry task w
  = (Raise (ValidationError "TaskResult"
              ("agent_type"
               :: rejected "execution_time"
                    (TaskResult.validate_execution_time
                       (total_seconds (utcnow_of w) (utcnow_of w1))))), w1).
Proof.
  intros Hfind. unfold execute_task.
  unfold bind at 1. unfold utcnow at 1. unfold try_except.
  unfold bind at 1. rewrite Hfind.
  unfold bind at 1. unfold utcnow at 1. unfold lift at 1.
  rewrite TaskResult_new_unknown. apply handler_raises.
Qed.

(** When the selected agent raises, so does [execute_task]. *)
Lemma execute_task_agent_raises registry task w selected_agent others w1 e w2 :
  AgentRegistry.find_capable_agents registry task w
  = (Return (selected_agent :: others), w1) →
  BaseAgent.execute selected_agent task w1 = (Raise e, w2) →
  execute_task registry task w
  = (Raise (ValidationError "TaskResult"
              ("agent_type"
               :: rejected "execution_time"
                    (TaskResult.validate_execution_time
                       (total_seconds (utcnow_of w) (utcnow_of w2))))), w2).
Proof.
  intros Hfind Hexec. unfold execute_task.
  unfold bind at 1. unfold utcnow at 1. unfold try_except.
  unfold bind at 1. rewrite Hfind, Hexec. apply handler_raises.
Qed.

(** When the registry lookup raises, so does [execute_task]. *)
Lemma execute_task_lookup_raises registry task w e w1 :
  AgentRegistry.find_capable_agents registry task w = (Raise e, w1) →
  execute_task registry task w
  = (Raise (ValidationError "TaskResult"
              ("agent_type"
               :: rejected "execution_time"
                    (TaskResult.validate_execution_time
                       (total_seconds (utcnow_of w) (utcnow_of w1))))), w1).
Proof.
  intros Hfind. unfold execute_task.
  unfold bind at 1. unfold utcnow at 1. unfold try_except.
  unfold bind at 1. rewrite Hfind. apply handler_raises.
Qed.

(** Agents that do not look at the retry fields of a task are asked and
    found alike whatever those fields hold. *)
Lemma capable_loop_retries agents task retry_count max_retries capable w :
  Forall (fun agent =>
            ∀ w', BaseAgent.can_handle agent
                    (Retry.with_retries task retry_count max_retries) w'
                  = BaseAgent.can_handle agent task w') agents →
  AgentRegistry.capable_loop agents
    (Retry.with_retries task retry_count max_retries) capable w
  = AgentRegistry.capable_loop agents task capable w.
Proof.
  intros Hsame. revert capable w.
  induction Hsame as [|agent agents Hagent _ IH]; intros capable w; [done|].
  simpl. unfold bind. rewrite Hagent.
  destruct (BaseAgent.can_handle agent task w) as [[b|e] w1]; [|done].
  apply IH.
Qed.

Lemma capable_loop_elem agents task capable w (found : list (BaseAgent.t W))
    w1 agent :
  AgentRegistry.capable_loop agents task capable w = (Return found, w1) →
  agent ∈ found → agent ∈ capable ∨ agent ∈ agents.
Proof.
  revert capable w. induction agents as [|a agents IH]; intros capable w; simpl.
  - intros [= <- _]. by left.
  - unfold bind.
    destruct (BaseAgent.can_handle a task w) as [[b|e] w2]; [|done].
    intros Hloop Hin. destruct (IH _ _ Hloop Hin) as [Hcap|Hrest].
    + destruct b; [|by left].
      apply elem_of_app in Hcap as [Hcap|Hcap]; [by left|].
      apply list_elem_of_singleton in Hcap as ->. right. left.
    + right. by right.
Qed.

(** C4, as the code has it.  [execute_task] dispatches the task, as it is,
    to the first capable agent, once, whether that agent returns or
    raises: the world it leaves is the world that single dispatch left.
    Whatever result the agent returns, a Failed one too, is the result of
    [execute_task].  When no agent is capable, or the lookup raises,
    nothing is dispatched: the world is the one the lookup left.  The
    retry count and the retry budget of the task are not consulted: with
    agents that do not look at them, [execute_task] does the same whatever
    they hold. *)
Theorem execute_task_dispatches_once registry task w :
  (∀ selected_agent others w1,
     AgentRegistry.find_capable_agents registry task w
     = (Return (selected_agent :: others), w1) →
     snd (execute_task registry task w)
     = snd (BaseAgent.execute selected_agent task w1)
     ∧ ∀ (result : TaskResult.t) w2,
         BaseAgent.execute selected_agent task w1 = (Return result, w2) →
         execute_task registry task w = (Return result, w2))
  ∧ (∀ w1,
       AgentRegistry.find_capable_agents registry task w = (Return [], w1) →
       snd (execute_task registry task w) = w1)
  ∧ (∀ e w1,
       AgentRegistry.find_capable_agents registry task w = (Raise e, w1) →
       snd (execute_task registry task w) = w1)
  ∧ (∀ retry_count max_retries,
       Forall (fun agent =>
                 ∀ w', BaseAgent.can_handle agent
                         (Retry.with_retries task retry_count max_retries) w'
                       = BaseAgent.can_handle agent task w'
                       ∧ BaseAgent.execute agent
                           (Retry.with_retries task retry_count max_retries) w'
                         = BaseAgent.execute agent task w')
         (AgentRegistry.values registry) →
       execute_task registry
         (Retry.with_retries task retry_count max_retries) w
       = execute_task registry task w).
Proof.
  split_and!.
  - intros selected_agent others w1 Hfind.
    destruct (BaseAgent.execute selected_agent task w1) as [[r|e] w2] eqn:Hexec.
    + rewrite (execute_task_agent_returns _ _ _ _ _ _ _ _ Hfind Hexec).
      split; [done|]. by intros result w2' [= <- <-].
    + rewrite (execute_task_agent_raises _ _ _ _ _ _ _ _ Hfind Hexec).
      split; [done|]. by intros result w2'.
  - intros w1 Hfind. by rewrite (execute_task_no_capable_agent _ _ _ _ Hfind).
  - intros e w1 Hfind. by rewrite (execute_task_lookup_raises _ _ _ _ _ Hfind).
  - intros retry_count max_retries Hsame.
    assert (AgentRegistry.find_capable_agents registry
              (Retry.with_retries task retry_count max_retries) w
            = AgentRegistry.find_capable_agents registry task w) as Hfind.
    { apply capable_loop_retries. eapply Forall_impl; [exact Hsame|].
      intros agent Hagent w'. apply Hagent. }
    unfold execute_task, bind, try_except. unfold utcnow at 1 4. simpl.
    rewrite Hfind.
    destruct (AgentRegistry.find_capable_agents registry task w)
      as [[[|selected_agent others]|e] w1] eqn:Hfound; [done| |done].
    assert (selected_agent ∈ AgentRegistry.values registry) as Hin.
    { destruct (capable_loop_elem _ _ _ _ _ _ selected_agent Hfound)
        as [Hnil|Hin]; [left | by apply elem_of_nil in Hnil | done]. }
    rewrite Forall_forall in Hsame.
    by rewrite (proj2 (Hsame _ Hin w1)).
Qed.

(** Hence a result of [execute_task] is always the selected agent's own. *)
Lemma execute_task_returns registry task w (result : TaskResult.t) w2 :
  execute_task registry task w = (Return result, w2) →
  ∃ selected_agent others w1,
    AgentRegistry.find_capable_agents registry task w
    = (Return (selected_agent :: others), w1)
    ∧ BaseAgent.execute selected_agent task w1 = (Return result, w2).
Proof.
  intros Hrun.
  destruct (AgentRegistry.find_capable_agents registry task w)
    as [[[|selected_agent others]|e] w1] eqn:Hfind.
  - by rewrite (execute_task_no_capable_agent _ _ _ _ Hfind) in Hrun.
  - destruct (BaseAgent.execute selected_agent task w1) as [[r|e] w2'] eqn:Hexec.
    + rewrite (execute_task_agent_returns _ _ _ _ _ _ _ _ Hfind Hexec) in Hrun.
      injection Hrun as -> ->. eauto.
    + by rewrite (execute_task_agent_raises _ _ _ _ _ _ _ _ Hfind Hexec) in Hrun.
  - by rewrite (execute_task_lookup_raises _ _ _ _ _ Hfind) in Hrun.
Qed.

Lemma plan_loop_runs registry tasks w results w2 acc :
  runs registry tasks w results w2 →
  plan_loop registry tasks acc w = (Return (acc ++ results), w2).
Proof.
  intros Hruns. revert acc.
  induction Hruns as [w|task tasks w result w1 results w2 Hrun _ IH];
    intros acc; simpl.
  - by rewrite app_nil_r.
  - unfold bind. rewrite Hrun, IH. by rewrite <- app_assoc.
Qed.

(** When every subtask's [execute_task] returns, [execute_plan] returns the
    results, one for each subtask, in the order of the subtasks. *)
Lemma execute_plan_runs registry plan w results w2 :
  runs registry (TaskPlanner.subtasks plan) w results w2 →
  execute_plan registry plan w = (Return results, w2)
  ∧ length results = length (TaskPlanner.subtasks plan).
Proof.
  intros Hruns. split.
  - unfold execute_plan. by rewrite (plan_loop_runs _ _ _ _ _ _ Hruns).
  - induction Hruns; simpl; congruence.
Qed.

(** When a subtask's [execute_task] raises, [execute_plan] raises there,
    and no later subtask is run. *)
Lemma plan_loop_raises registry done task rest w results w1 e w2 acc :
  runs registry done w results w1 →
  execute_task registry task w1 = (Raise e, w2) →
  plan_loop registry (done ++ task :: rest) acc w = (Raise e, w2).
Proof.
  intros Hruns Hraise. revert acc.
  induction Hruns as [w|t ts w r w' rs w1 Hrun _ IH]; intros acc; simpl.
  - unfold bind. by rewrite Hraise.
  - unfold bind. rewrite Hrun. by apply IH.
Qed.
End engine.

(** A run of C4's theorem: the flaky agent reports a failure and the
    engine returns it; the crashing agent raises and was dispatched once;
    with the code agent, a task whose retry budget is used up is executed
    as the task itself. *)
Lemma execute_task_dispatches_once_run :
  (∃ result w2,
     BaseAgent.execute Sample.flaky Sample.task0 Sample.world0
     = (Return result, w2)
     ∧ execute_task (AgentRegistry.registered [Sample.flaky]) Sample.task0
         Sample.world0
       = (Return result, w2))
  ∧ Sample.dispatched
      (snd (execute_task (AgentRegistry.registered [Sample.crashing])
              Sample.task0 Sample.world0))
    = [(AgentType.CODE, Sample.task0)]
  ∧ execute_task
      (AgentRegistry.registered
         [CodeGenerationAgent.init Fixture.json_loads (Some Fixture.llm_down)])
      (Retry.with_retries Sample.task0 3 3) Sample.world0
    = execute_task
        (AgentRegistry.registered
           [CodeGenerationAgent.init Fixture.json_loads (Some Fixture.llm_down)])
        Sample.task0 Sample.world0.
Proof.
  split_and!.
  - do 2 eexists. split; [reflexivity|].
    eapply (proj1 (execute_task_dispatches_once
                     (AgentRegistry.registered [Sample.flaky]) Sample.task0
                     Sample.world0) Sample.flaky [] Sample.world0 eq_refl).
    reflexivity.
  - exact (f_equal Sample.dispatched
             (proj1 (proj1 (execute_task_dispatches_once
                              (AgentRegistry.registered [Sample.crashing])
                              Sample.task0 Sample.world0)
                       Sample.crashing [] Sample.world0 eq_refl))).
  - apply (proj2 (proj2 (proj2 (execute_task_dispatches_once
                                  (AgentRegistry.registered
                                     [CodeGenerationAgent.init
                                        Fixture.json_loads
                                        (Some Fixture.llm_down)])
                                  Sample.task0 Sample.world0))) 3 3).
    repeat constructor.
Defined.

(** C4, as the specification has it, fails: the agent reports a failure,
    the retry budget of the task is untouched, and the engine neither
    counts a retry nor dispatches again; its result is the failure. *)
Lemma execute_task_does_not_retry :
  ∃ result w2,
    execute_task (AgentRegistry.registered [Sample.flaky]) Sample.task0
      Sample.world0
    = (Return result, w2)
    ∧ enum_of (TaskResult.status result) = TaskStatus.FAILED
    ∧ Sample.dispatched w2 = [(AgentType.CODE, Sample.task0)]
    ∧ TaskRequest.retry_count Sample.task0 = 0
    ∧ TaskRequest.max_retries Sample.task0 = 3.
Proof. do 2 eexists. split; [reflexivity|]. by repeat split. Qed.

(** C5 at a registry without agents: [execute_task] raises the validation
    error of the result it tried to build; no Failed result comes back. *)
Lemma execute_task_without_agents :
  execute_task AgentRegistry.init Sample.task0 Sample.world0
  = (Raise (ValidationError "TaskResult" ["agent_type"]), Sample.world0).
Proof. reflexivity. Qed.

(** C9 at an agent whose [execute] raises: [execute_task] raises too, with
    the validation error of the Failed result it tried to build. *)
Lemma execute_task_with_crashing_agent :
  execute_task (AgentRegistry.registered [Sample.crashing]) Sample.task0
    Sample.world0
  = (Raise (ValidationError "TaskResult" ["agent_type"]),
     {| Sample.clock := 1700000000050000;
        Sample.entropy := ["uuid-1"; "uuid-2"];
        Sample.dispatched := [(AgentType.CODE, Sample.task0)] |}).
Proof. reflexivity. Qed.

(** C10 at a plan whose second subtask finds no capable agent:
    [execute_plan] raises, and the result of the first subtask is lost. *)
Lemma execute_plan_with_incapable_registry :
  (∃ result w1,
     execute_task (AgentRegistry.registered [Sample.coder]) Sample.task0
       Sample.world0
     = (Return result, w1))
  ∧ ∃ w2,
      execute_plan (AgentRegistry.registered [Sample.coder])
        Sample.two_step_plan Sample.world0
      = (Raise (ValidationError "TaskResult" ["agent_type"]), w2).
Proof. split; [do 2 eexists | eexists]; reflexivity. Qed.
End ExecutionEngine_facts.

(** ** The orchestrator façade *)

Module AgenticMiddleware_facts.
Import AgenticMiddleware.

Lemma failed_status e timestamp :
  failed e timestamp !! "status" = Some (VStr "failed")
  ∧ failed e timestamp !! "error" = Some (VStr (str e)).
Proof. unfold failed. split; by simplify_map_eq. Qed.

Section middleware.
Context {W : Type} `{Runtime W}.
Implicit Types (self : t W) (w : W) (response : Response).

(** The [except] block returns, and leaves the world as it found it. *)
Lemma failed_response_returns e w :
  failed_response e w = (Return (failed e (utcnow_of w)), w).
Proof. reflexivity. Qed.

(** Whatever the [try] block is, the [try] statement returns a response
    that carries a status. *)
Lemma try_body_returns (body : M W Response) w :
  (∀ response w1, body w = (Return response, w1) → is_Some (response !! "status")) →
  ∃ response w1,
    try_except body failed_response w = (Return response, w1)
    ∧ is_Some (response !! "status").
Proof.
  intros Hbody. unfold try_except.
  destruct (body w) as [[response|e] w1] eqn:Hrun.
  - exists response, w1. split; [done|]. by eapply Hbody.
  - exists (failed e (utcnow_of w1)), w1. split; [done|].
    rewrite (proj1 (failed_status _ _)). by eexists.
Qed.

Lemma _format_single_result_status result w response w1 :
  _format_single_result result w = (Return response, w1) →
  is_Some (response !! "status").
Proof.
  unfold _format_single_result. destruct (TaskResult.status result); [done|].
  intros [= <- _]. simplify_map_eq. by eexists.
Qed.

Lemma _aggregate_results_status results plan w response w1 :
  _aggregate_results results plan w = (Return response, w1) →
  is_Some (response !! "status").
Proof. intros [= <- _]. simplify_map_eq. by eexists. Qed.

Lemma request_body_status self user_input context w response w1 :
  request_body self user_input context w = (Return response, w1) →
  is_Some (response !! "status").
Proof.
  unfold request_body, bind, fresh_uuid, utcnow, lift, _needs_planning, ret.
  destruct (classify self user_input context w) as [[intent|e] w2]; [|done].
  destruct (uuid4 w2) as [task_id w3].
  destruct (TaskRequest.new _ _ _ _ _) as [task|e]; [|done].
  destruct (execute_task self (agent_registry self) task w3)
    as [[result|e] w4]; [|done].
  apply _format_single_result_status.
Qed.

(** C1.  For every middleware, whatever its classifier, planner and engine
    do, every input and every context, [process_request] returns a
    dictionary that carries a status, and raises nothing.  When its [try]
    block raises, the dictionary is the Failed response: status "failed"
    and the message of the exception.  The block raises what the
    classifier raises, and what the engine raises. *)
Theorem process_request_never_raises self user_input context w :
  (∃ response w1,
     process_request self user_input context w = (Return response, w1)
     ∧ is_Some (response !! "status"))
  ∧ (∀ e w1,
       request_body self user_input context w = (Raise e, w1) →
       process_request self user_input context w
       = (Return (failed e (utcnow_of w1)), w1)
       ∧ failed e (utcnow_of w1) !! "status" = Some (VStr "failed")
       ∧ failed e (utcnow_of w1) !! "error" = Some (VStr (str e)))
  ∧ (∀ e w1,
       classify self user_input context w = (Raise e, w1) →
       request_body self user_input context w = (Raise e, w1))
  ∧ (∀ intent w1 task_id w2 task e w3,
       classify self user_input context w = (Return intent, w1) →
       uuid4 w1 = (task_id, w2) →
       TaskRequest.new task_id (utcnow_of w2) (IntentClassifier.value intent)
         user_input context = Return task →
       execute_task self (agent_registry self) task w2 = (Raise e, w3) →
       request_body self user_input context w = (Raise e, w3)).
Proof.
  split_and!.
  - apply try_body_returns. intros response w1.
    apply request_body_status.
  - intros e w1 Hbody. split; [|apply failed_status].
    unfold process_request, try_except. by rewrite Hbody.
  - intros e w1 Hclassify. unfold request_body, bind. by rewrite Hclassify.
  - intros intent w1 task_id w2 task e w3 Hclassify Huuid Htask Hexec.
    unfold request_body, bind, fresh_uuid, utcnow, lift, _needs_planning, ret.
    by rewrite Hclassify, Huuid, Htask, Hexec.
Qed.

(** The planner's faults stop at the same boundary: were planning needed,
    an exception of [create_plan] would leave the block and be answered by
    the Failed response, as any exception of the block is. *)
Lemma planning_fault_is_answered self (task : TaskRequest.t) e w w1 :
  create_plan self (agent_registry self) task w = (Raise e, w1) →
  try_except
    (plan <- create_plan self (agent_registry self) task ;;
     results <- execute_plan self (agent_registry self) plan ;;
     _aggregate_results results plan)%M
    failed_response w
  = (Return (failed e (utcnow_of w1)), w1).
Proof. intros Hplan. unfold try_except, bind. by rewrite Hplan. Qed.
End middleware.

(** The engine's own fault is answered: with an agent that raises, the
    engine raises a validation error and the façade returns the Failed
    response that carries its message. *)
Example process_request_with_crashing_agent :
  ∃ w1,
    process_request (register_agent init Sample.crashing)
      "Implement a parser" Sample.context0 Sample.world0
    = (Return (failed (ValidationError "TaskResult" ["agent_type"])
                 1700000000050000), w1).
Proof. eexists. reflexivity. Qed.

(** A result as the models construct it keeps its status as a plain [str];
    formatting it raises, and that too is answered. *)
Example process_request_with_coder :
  ∃ w1,
    process_request (register_agent init Sample.coder)
      "Implement a parser" Sample.context0 Sample.world0
    = (Return (failed (AttributeError "'str' object has no attribute 'value'")
                 1700000000050000), w1).
Proof. eexists. reflexivity. Qed.

(** A result marked completed by its agent is formatted. *)
Example process_request_with_finisher :
  ∃ w1,
    process_request (register_agent init Sample.finisher)
      "Implement a parser" Sample.context0 Sample.world0
    = (Return {[ "status" := VStr "completed";
                 "result" := VResult (Some {[ "code" := "pass" ]}) ]}, w1).
Proof. eexists. reflexivity. Qed.

(** An empty input is rejected by the request's validator, and answered. *)
Example process_request_with_blank_input :
  process_request (register_agent init Sample.finisher)
    "   " Sample.context0 Sample.world0
  = (Return (failed (ValidationError "TaskRequest" ["description"])
               1700000000000000),
     {| Sample.clock := 1700000000000000; Sample.entropy := ["uuid-2"];
        Sample.dispatched := [] |}).
Proof. reflexivity. Qed.
End AgenticMiddleware_facts.

(** * Further properties *)

(** ** Strings *)

Module String_facts.
Lemma lstrip_head s c t : lstrip s = String c t → isspace c = false.
Proof.
  induction s as [|c' s IH]; simpl; [done|].
  destruct (isspace c') eqn:Hc'; [done|]. by intros [= <- _].
Qed.

Lemma lstrip_fixed c t : isspace c = false → lstrip (String c t) = String c t.
Proof. intros Hc. simpl. by rewrite Hc. Qed.

Lemma rstrip_head s c t : rstrip s = String c t → ∃ t', s = String c t'.
Proof.
  destruct s as [|c' s]; simpl; [done|].
  destruct (rstrip s); [destruct (isspace c')|]; intros [= <- _]; eauto.
Qed.

Lemma rstrip_idempotent s : rstrip (rstrip s) = rstrip s.
Proof.
  induction s as [|c s IH]; simpl; [done|].
  destruct (rstrip s) as [|c' t] eqn:Hs.
  - destruct (isspace c) eqn:Hc; simpl; [done|]. by rewrite Hc.
  - change (rstrip (String c (String c' t))) with
      (match rstrip (String c' t) with
       | EmptyString => if isspace c then EmptyString else String c EmptyString
       | t' => String c t'
       end).
    by rewrite IH.
Qed.

(** [strip] leaves nothing to strip. *)
Lemma strip_idempotent s : strip (strip s) = strip s.
Proof.
  unfold strip. destruct (rstrip (lstrip s)) as [|c t] eqn:Hs; [done|].
  destruct (rstrip_head _ _ _ Hs) as [t' Ht'].
  rewrite lstrip_fixed by (by eapply lstrip_head).
  by rewrite <- Hs, rstrip_idempotent.
Qed.

Lemma isspace_lower c : isspace (lower_ascii c) = isspace c.
Proof. by destruct c as [[] [] [] [] [] [] [] []]. Qed.

Lemma lower_ascii_idempotent c : lower_ascii (lower_ascii c) = lower_ascii c.
Proof. by destruct c as [[] [] [] [] [] [] [] []]. Qed.

Lemma lower_idempotent s : lower (lower s) = lower s.
Proof.
  induction s as [|c s IH]; simpl; [done|].
  by rewrite lower_ascii_idempotent, IH.
Qed.

Lemma lower_lstrip s : lower (lstrip s) = lstrip (lower s).
Proof.
  induction s as [|c s IH]; simpl; [done|]. rewrite isspace_lower.
  by destruct (isspace c).
Qed.

Lemma lower_rstrip s : lower (rstrip s) = rstrip (lower s).
Proof.
  induction s as [|c s IH]; simpl; [done|]. rewrite <- IH, isspace_lower.
  destruct (rstrip s); simpl; [by destruct (isspace c)|done].
Qed.

Lemma lower_strip s : lower (strip s) = strip (lower s).
Proof. unfold strip. by rewrite lower_rstrip, lower_lstrip. Qed.

Lemma lower_empty s : lower s = "" ↔ s = "".
Proof. by destruct s. Qed.

Lemma is_ascii_lstrip s : is_ascii s = true → is_ascii (lstrip s) = true.
Proof.
  induction s as [|c s IH]; simpl; [done|].
  intros [Hc Hs]%andb_true_iff. destruct (isspace c); [by apply IH|].
  simpl. by rewrite Hc, Hs.
Qed.

Lemma is_ascii_rstrip s : is_ascii s = true → is_ascii (rstrip s) = true.
Proof.
  induction s as [|c s IH]; simpl; [done|].
  intros [Hc Hs]%andb_true_iff. specialize (IH Hs).
  destruct (rstrip s) as [|c' t].
  - destruct (isspace c); [done|]. simpl. by rewrite Hc.
  - change (is_ascii (String c (String c' t)))
      with (is_ascii_char c && is_ascii (String c' t)).
    by rewrite Hc, IH.
Qed.

Lemma is_ascii_strip s : is_ascii s = true → is_ascii (strip s) = true.
Proof. intros Hs. by apply is_ascii_rstrip, is_ascii_lstrip. Qed.

Lemma is_ascii_lower s : is_ascii s = true → is_ascii (lower s) = true.
Proof.
  induction s as [|c s IH]; simpl; [done|].
  intros [Hc Hs]%andb_true_iff. rewrite (IH Hs), andb_true_r.
  revert Hc. by destruct c as [[] [] [] [] [] [] [] []].
Qed.
End String_facts.

(** ** The validators and the utility functions of the models *)

Module agent_models_facts.
Import agent_models String_facts.

Lemma validate_description_Some v :
  strip v ≠ "" → TaskRequest.validate_description v = Some (strip v).
Proof.
  intros Hv. unfold TaskRequest.validate_description.
  rewrite (bool_decide_eq_false_2 (strip v = "")) by done.
  destruct v; [done|]. by rewrite bool_decide_eq_false_2.
Qed.

Lemma validate_description_None v :
  strip v = "" → TaskRequest.validate_description v = None.
Proof.
  intros Hv. unfold TaskRequest.validate_description.
  rewrite (bool_decide_eq_true_2 (strip v = "")) by done.
  by rewrite orb_true_r.
Qed.

Lemma validate_description_stripped v d :
  TaskRequest.validate_description v = Some d → d = strip v ∧ d ≠ "".
Proof.
  destruct (decide (strip v = "")) as [Hblank|Hfull].
  - by rewrite (validate_description_None _ Hblank).
  - rewrite (validate_description_Some _ Hfull). by intros [= <-].
Qed.

(** On ASCII text, the validator of a description (and of a workspace
    path, a message, a message content) rejects exactly the blank texts,
    and what it accepts it turns into an ASCII text it accepts unchanged:
    stripped and not empty. *)
Theorem validate_description_normal_form (v : string) :
  is_ascii v = true →
  (TaskRequest.validate_description v = None ↔ strip v = "")
  ∧ ∀ d, TaskRequest.validate_description v = Some d →
         d = strip v ∧ d ≠ "" ∧ is_ascii d = true
         ∧ TaskRequest.validate_description d = Some d.
Proof.
  intros Hascii. apply is_ascii_strip in Hascii.
  destruct (decide (strip v = "")) as [Hblank|Hfull].
  - rewrite (validate_description_None _ Hblank). split; [done|]. by intros d.
  - rewrite (validate_description_Some _ Hfull). split.
    + split; [done|]. by intros ?.
    + intros d [= <-]. split_and!; [done..|].
      rewrite <- (strip_idempotent v) at 2.
      apply validate_description_Some. by rewrite strip_idempotent.
Qed.

(** A run of [validate_description_normal_form]. *)
Lemma validate_description_normal_form_run :
  TaskRequest.validate_description "  implement a parser " = Some "implement a parser"
  ∧ TaskRequest.validate_description "implement a parser"
    = Some "implement a parser".
Proof.
  split; [reflexivity|].
  exact (proj2 (proj2 (proj2
           (proj2 (validate_description_normal_form "  implement a parser "
                     eq_refl) "implement a parser" eq_refl)))).
Defined.

(** A capability name is accepted unless it is blank; the accepted name is
    stripped and lowered, and is a name the validator accepts unchanged. *)
Theorem validate_name_normal_form (v : string) :
  (AgentCapability.validate_name v = None ↔ strip v = "")
  ∧ ∀ name, AgentCapability.validate_name v = Some name →
            name = lower (strip v) ∧ name ≠ ""
            ∧ AgentCapability.validate_name name = Some name.
Proof.
  unfold AgentCapability.validate_name.
  destruct (decide (strip v = "")) as [Hblank|Hfull].
  - rewrite (bool_decide_eq_true_2 (strip v = "")), orb_true_r by done.
    split; [done|]. by intros name.
  - rewrite (bool_decide_eq_false_2 (strip v = "")) by done.
    assert (v ≠ "") as Hv by (by intros ->).
    rewrite (bool_decide_eq_false_2 (v = "")) by done. simpl.
    assert (lower (strip v) ≠ "") as Hname by (by rewrite lower_empty).
    split; [split; [done | by intros ?]|].
    intros name [= <-]. split_and!; [done..|].
    assert (strip (lower (strip v)) = lower (strip v)) as Hfix.
    { by rewrite <- lower_strip, strip_idempotent. }
    rewrite Hfix.
    rewrite (bool_decide_eq_false_2 (lower (strip v) = "")) by done. simpl.
    by rewrite lower_idempotent.
Qed.

(** An ASCII provider name is accepted exactly when, lowered, it is one of
    the five known names; the accepted value is that lowered name, which
    the validator accepts unchanged. *)
Theorem validate_provider_normal_form (v : string) :
  is_ascii v = true →
  (LLMConfig.validate_provider v = None ↔ lower v ∉ LLMConfig.valid_providers)
  ∧ ∀ provider, LLMConfig.validate_provider v = Some provider →
                provider = lower v
                ∧ provider ∈ LLMConfig.valid_providers
                ∧ LLMConfig.validate_provider provider = Some provider.
Proof.
  intros _. unfold LLMConfig.validate_provider. case_bool_decide as Hin.
  - split; [split; [done | by intros ?]|].
    intros provider [= <-]. split_and!; [done..|].
    rewrite lower_idempotent. by rewrite bool_decide_eq_true_2.
  - split; [done|]. by intros provider.
Qed.

(** A run of [validate_provider_normal_form]. *)
Lemma validate_provider_normal_form_run :
  LLMConfig.validate_provider "OpenAI" = Some "openai"
  ∧ LLMConfig.validate_provider "openai" = Some "openai".
Proof.
  split; [reflexivity|].
  exact (proj2 (proj2 (proj2 (validate_provider_normal_form "OpenAI" eq_refl)
                         "openai" eq_refl))).
Defined.
Lemma blank_strip v : blank (strip v) = blank v.
Proof. unfold blank. by rewrite strip_idempotent. Qed.

Lemma validate_task_request_nil task :
  validate_task_request task = []
  ↔ blank (TaskRequest.description task) = false
    ∧ 1 <= TaskRequest.timeout task <= 3600
    ∧ blank (ExecutionContext.workspace_path (TaskRequest.context task))
      = false.
Proof.
  unfold validate_task_request.
  destruct (blank (TaskRequest.description task));
    destruct (blank (ExecutionContext.workspace_path (TaskRequest.context task)));
    destruct (TaskRequest.timeout task <? 1) eqn:Hlo;
    destruct (3600 <? TaskRequest.timeout task) eqn:Hhi; simpl;
    try (split; [done | by intros (? & ? & ?)]);
    try (apply Z.ltb_lt in Hlo); try (apply Z.ltb_lt in Hhi);
    try (apply Z.ltb_ge in Hlo); try (apply Z.ltb_ge in Hhi);
    (split; [try done; intros _; split_and!; try done; lia
            | try done; intros (? & ? & ?); lia]).
Qed.

(** For an ASCII description, [create_task_request] rejects a blank
    description and nothing else; the request it returns carries the
    stripped description, the intent, the priority and the parameters it
    was given, the default timeout of 300 seconds and an unused retry
    budget of 3. *)
Theorem create_task_request_spec (id : string) (created_at : Z)
    (description : string) (context : ExecutionContext.t)
    (intent : IntentType.t) (priority : Priority.t) (parameters : Payload) :
  is_ascii description = true →
  (strip description = "" →
   create_task_request id created_at description context intent priority
     parameters
   = Raise (ValidationError "TaskRequest" ["description"]))
  ∧ (strip description ≠ "" →
     ∃ task,
       create_task_request id created_at description context intent priority
         parameters
       = Return task
       ∧ TaskRequest.id task = id
       ∧ TaskRequest.description task = strip description
       ∧ TaskRequest.intent task = intent
       ∧ TaskRequest.priority task = priority
       ∧ TaskRequest.parameters task = parameters
       ∧ TaskRequest.context task = context
       ∧ TaskRequest.timeout task = 300
       ∧ TaskRequest.retry_count task = 0
       ∧ TaskRequest.max_retries task = 3).
Proof.
  intros _. unfold create_task_request. split; intros Hd.
  - by rewrite (validate_description_None _ Hd).
  - rewrite (validate_description_Some _ Hd). simpl. eexists.
    split; [reflexivity|]. by split_and!.
Qed.

(** A run of [create_task_request_spec]. *)
Lemma create_task_request_spec_run :
  ∃ task,
    create_task_request "t9" 1700000000000000 "  implement a parser  "
      Sample.context0 IntentType.CODE_GENERATION Priority.HIGH ∅
    = Return task
    ∧ TaskRequest.description task = "implement a parser"
    ∧ TaskRequest.max_retries task = 3.
Proof.
  destruct (proj2 (create_task_request_spec "t9" 1700000000000000
                     "  implement a parser  " Sample.context0
                     IntentType.CODE_GENERATION Priority.HIGH ∅ eq_refl)
              ltac:(discriminate))
    as (task & Hrun & _ & Hdescription & _ & _ & _ & _ & _ & _ & Hretries).
  exists task. by split_and!.
Defined.

(** A request built by [create_task_request] over a context built by
    [create_execution_context] passes [validate_task_request]: the
    constructors leave the validation utility nothing to report. *)
Theorem created_request_is_valid (session_id user_id project_id : string)
    (workspace_path : string) (metadata : Payload)
    (context : ExecutionContext.t) (id : string) (created_at : Z)
    (description : string) (intent : IntentType.t) (priority : Priority.t)
    (parameters : Payload) (task : TaskRequest.t) :
  create_execution_context session_id user_id project_id workspace_path
    metadata = Return context →
  create_task_request id created_at description context intent priority
    parameters = Return task →
  validate_task_request task = [].
Proof.
  unfold create_execution_context, ExecutionContext_init, create_task_request.
  destruct (TaskRequest.validate_description workspace_path) as [path|] eqn:Hpath;
    [|done].
  destruct (TaskRequest.validate_description description) as [d|] eqn:Hd;
    [|done].
  simpl. intros [= <-] [= <-].
  destruct (validate_description_stripped _ _ Hpath) as [-> Hp1].
  destruct (validate_description_stripped _ _ Hd) as [-> Hd1].
  apply validate_task_request_nil. simpl. unfold blank.
  rewrite !strip_idempotent. split_and!; [|lia|lia|];
    by apply bool_decide_eq_false_2.
Qed.

(** With ASCII texts, a context that the constructor accepted is never
    reported for its workspace path; [validate_execution_context] reports
    it exactly for the identifiers that are blank, which the constructor
    does not check, and with no more than three messages. *)
Theorem validate_execution_context_of_constructed
    (session_id user_id project_id workspace_path : string)
    (metadata : Payload) (context : ExecutionContext.t) :
  is_ascii session_id = true → is_ascii user_id = true →
  is_ascii project_id = true → is_ascii workspace_path = true →
  ExecutionContext_init session_id user_id project_id workspace_path metadata
  = Return context →
  ("Workspace path cannot be empty" ∉ validate_execution_context context)
  ∧ (length (validate_execution_context context) <= 3)%nat
  ∧ (validate_execution_context context = []
     ↔ strip session_id ≠ "" ∧ strip user_id ≠ "" ∧ strip project_id ≠ "").
Proof.
  intros _ _ _ _. unfold ExecutionContext_init.
  destruct (TaskRequest.validate_description workspace_path) as [path|] eqn:Hpath;
    [|done].
  intros [= <-].
  destruct (validate_description_stripped _ _ Hpath) as [-> Hp1].
  assert (blank (strip workspace_path) = false) as Hw.
  { rewrite blank_strip. by apply bool_decide_eq_false_2. }
  assert (∀ s, blank s = false ↔ strip s ≠ "") as Hblank.
  { intros s. unfold blank. by rewrite bool_decide_eq_false. }
  unfold validate_execution_context. simpl. rewrite Hw.
  rewrite <- !Hblank.
  destruct (blank session_id), (blank user_id), (blank project_id); simpl;
    (split_and!;
     [ rewrite ?elem_of_cons, elem_of_nil; intros Hin;
       repeat destruct Hin as [Hin|Hin]; done
     | lia
     | split; [try done; by intros _ | try done; by intros (? & ? & ?)] ]).
Qed.
End agent_models_facts.

(** A run of [created_request_is_valid]. *)
Lemma created_request_is_valid_run :
  ∃ context task,
    agent_models.create_execution_context "s1" "default_user"
      "default_project" " /tmp/workspace " ∅ = Return context
    ∧ agent_models.create_task_request "t9" 1700000000000000
        "  implement a parser  " context IntentType.CODE_GENERATION
        Priority.HIGH ∅ = Return task
    ∧ TaskRequest.description task = "implement a parser"
    ∧ agent_models.validate_task_request task = [].
Proof.
  do 2 eexists. split; [reflexivity|]. split; [reflexivity|].
  split; [reflexivity|].
  eapply (agent_models_facts.created_request_is_valid "s1" "default_user"
            "default_project" " /tmp/workspace " ∅ _ "t9" 1700000000000000
            "  implement a parser  " IntentType.CODE_GENERATION Priority.HIGH
            ∅ _); reflexivity.
Defined.

(** A run of [validate_execution_context_of_constructed]: a context with a
    blank session id is constructed, and reported for it alone. *)
Lemma validate_execution_context_run :
  ∃ context,
    agent_models.ExecutionContext_init "  " "u1" "p1" "/tmp/workspace" ∅
    = Return context
    ∧ agent_models.validate_execution_context context
      = ["Session ID cannot be empty"]
    ∧ ("Workspace path cannot be empty"
       ∉ agent_models.validate_execution_context context).
Proof.
  eexists. split; [reflexivity|]. split; [reflexivity|].
  eapply (proj1 (agent_models_facts.validate_execution_context_of_constructed
                   "  " "u1" "p1" "/tmp/workspace" ∅ _ eq_refl eq_refl
                   eq_refl eq_refl eq_refl)).
Defined.

(** ** Enum values *)

Module Enum_facts.
Lemma AgentType_of_value_value a : AgentType.of_value (AgentType.value a) = Some a.
Proof. by destruct a. Qed.

Lemma IntentType_of_value_value i :
  IntentType.of_value (IntentType.value i) = Some i.
Proof. by destruct i. Qed.

(** A member is found by its value and by no other text: [value] and the
    lookup by value are inverse to each other, for agent types and for
    intents; and every intent of the classifier's own enum is, by its
    value, an intent of the models. *)
Theorem enum_value_round_trip :
  (∀ a, AgentType.of_value (AgentType.value a) = Some a)
  ∧ (∀ s a, AgentType.of_value s = Some a → AgentType.value a = s)
  ∧ (∀ i, IntentType.of_value (IntentType.value i) = Some i)
  ∧ (∀ s i, IntentType.of_value s = Some i → IntentType.value i = s)
  ∧ (∀ c, ∃ i, IntentType.of_value (IntentClassifier.value c) = Some i
               ∧ IntentType.value i = IntentClassifier.value c).
Proof.
  split_and!.
  - apply AgentType_of_value_value.
  - intros s a Hfind. apply find_some in Hfind as [_ Heq].
    by apply String.eqb_eq in Heq.
  - apply IntentType_of_value_value.
  - intros s i Hfind. apply find_some in Hfind as [_ Heq].
    by apply String.eqb_eq in Heq.
  - intros c. destruct c; eexists; (split; [reflexivity|reflexivity]).
Qed.
End Enum_facts.

(** ** Task results *)

Module TaskResult_facts.
(** Marking a result completed sets its status and its completion time and
    nothing else, unless a non-empty payload is given: a result that was
    marked failed before keeps the error message of that failure, and an
    empty or missing payload leaves the stored one in place. *)
Theorem mark_completed_after_failed (r : TaskResult.t) (t1 t2 : Z)
    (error : string) (payload : option Payload) :
  let r' := TaskResult.mark_completed t2 payload (TaskResult.mark_failed t1 error r) in
  TaskResult.status r' = Member TaskStatus.COMPLETED
  ∧ TaskResult.completed_at r' = Some t2
  ∧ TaskResult.error r' = Some error
  ∧ (payload = None ∨ payload = Some ∅ → TaskResult.result r' = TaskResult.result r)
  ∧ (∀ p, payload = Some p → p ≠ ∅ → TaskResult.result r' = Some p)
  ∧ TaskResult.task_id r' = TaskResult.task_id r
  ∧ TaskResult.agent_type r' = TaskResult.agent_type r
  ∧ TaskResult.execution_time r' = TaskResult.execution_time r.
Proof.
  simpl. split_and!; try done.
  - by intros [->| ->].
  - intros p -> Hp. by rewrite bool_decide_eq_false_2.
Qed.

Section runtime.
Context {W : Type} `{Runtime W}.

(** [create_task_result] raises exactly for a negative execution time;
    otherwise it returns the result, stamped with the time of the call
    exactly when the status asked for is Completed, and changes nothing
    in the world. *)
Theorem create_task_result_spec (task_id : string) (agent_type : AgentType.t)
    (status : TaskStatus.t) (result : option Payload) (error : option string)
    (execution_time : Q) (w : W) :
  ((execution_time < 0)%Q →
   agent_models.create_task_result task_id agent_type status result error
     execution_time w
   = (Raise (ValidationError "TaskResult" ["execution_time"]), w))
  ∧ ((0 <= execution_time)%Q →
     ∃ r,
       agent_models.create_task_result task_id agent_type status result error
         execution_time w
       = (Return r, w)
       ∧ TaskResult.task_id r = task_id
       ∧ enum_of (TaskResult.agent_type r) = agent_type
       ∧ enum_of (TaskResult.status r) = status
       ∧ TaskResult.result r = result
       ∧ TaskResult.error r = error
       ∧ TaskResult.execution_time r = execution_time
       ∧ TaskResult.completed_at r
         = (if decide (status = TaskStatus.COMPLETED)
            then Some (utcnow_of w) else None)).
Proof.
  unfold agent_models.create_task_result, bind, utcnow, lift, TaskResult.new,
    TaskResult.validate_execution_time.
  rewrite Enum_facts.AgentType_of_value_value.
  split; intros Htime.
  - destruct (Qlt_le_dec execution_time 0) as [_|Hle]; [done|].
    exfalso. by apply (Qlt_not_le _ _ Htime).
  - destruct (Qlt_le_dec execution_time 0) as [Hlt|_].
    { exfalso. by apply (Qlt_not_le _ _ Hlt). }
    simpl. destruct (decide (status = TaskStatus.COMPLETED));
      eexists; (split; [reflexivity|]); by split_and!.
Qed.
End runtime.
End TaskResult_facts.

(** ** The session models *)

Module Session_facts.
Import ConversationHistory.

Lemma slice_from_negative {A} (l : list A) (k : Z) :
  1 <= k → slice_from l (- k) = drop (length l - Z.to_nat k) l.
Proof.
  intros Hk. unfold slice_from.
  rewrite (proj2 (Z.ltb_lt _ _)) by lia. f_equal. lia.
Qed.

Lemma slice_from_nonnegative {A} (l : list A) (k : Z) :
  0 <= k → slice_from l k = drop (Z.to_nat k) l.
Proof.
  intros Hk. unfold slice_from.
  rewrite (proj2 (Z.ltb_ge _ _)) by lia.
  destruct (decide (k <= Z.of_nat (length l))) as [Hle|Hgt].
  - by rewrite Z.min_l.
  - rewrite Z.min_r, Nat2Z.id by lia.
    rewrite !drop_ge; [done | lia | lia].
Qed.

Lemma get_recent_messages_drop (self : t) (limit : Z) :
  1 <= limit →
  get_recent_messages self limit
  = drop (length (messages self) - Z.to_nat limit) (messages self).
Proof.
  intros Hlimit. unfold get_recent_messages.
  destruct (messages self) as [|m l] eqn:Hm.
  - by rewrite drop_nil.
  - by apply slice_from_negative.
Qed.

(** With a limit of one or more, [get_recent_messages] returns the last
    [limit] messages of the history, all of them when there are fewer, in
    the order of the history. *)
Theorem get_recent_messages_last (self : t) (limit : Z) :
  1 <= limit →
  get_recent_messages self limit
  = drop (length (messages self) - Z.to_nat limit) (messages self)
  ∧ length (get_recent_messages self limit)
    = Nat.min (Z.to_nat limit) (length (messages self))
  ∧ suffix (get_recent_messages self limit) (messages self).
Proof.
  intros Hlimit. rewrite (get_recent_messages_drop _ _ Hlimit). split_and!; [done | rewrite length_drop; lia | apply suffix_drop].
Qed.

(** With a limit of zero or below, [get_recent_messages] returns the
    history without its first [-limit] messages: the whole history for a
    limit of zero, and the empty list once [-limit] reaches the length of
    the history. *)
Theorem get_recent_messages_nonpositive (self : t) (limit : Z) :
  limit <= 0 →
  get_recent_messages self limit = drop (Z.to_nat (- limit)) (messages self)
  ∧ length (get_recent_messages self limit)
    = (length (messages self) - Z.to_nat (- limit))%nat
  ∧ (limit = 0 → get_recent_messages self limit = messages self)
  ∧ (Z.of_nat (length (messages self)) <= - limit →
     get_recent_messages self limit = []).
Proof.
  intros Hlimit.
  assert (get_recent_messages self limit
          = drop (Z.to_nat (- limit)) (messages self)) as Heq.
  { unfold get_recent_messages. destruct (messages self) as [|m l] eqn:Hm.
    - by rewrite drop_nil.
    - apply slice_from_nonnegative. lia. }
  rewrite Heq. split_and!; [done | apply length_drop | by intros -> |].
  intros Hall. apply drop_ge. lia.
Qed.


Lemma last_nonempty_default {A} (a : A) (l : list A) (d d' : A) :
  List.last (a :: l) d = List.last (a :: l) d'.
Proof. revert a. induction l as [|b l IH]; intros a; [done|]. apply (IH b). Qed.

(** Each [update_activity] counts one message: after a run of updates the
    count has grown by their number, the last activity is the time of the
    last update, and the identity of the session is untouched. *)
Theorem update_activity_counts (times : list Z) (self : SessionContext.t) :
  let self' :=
    fold_left (fun s now => SessionContext.update_activity now s) times self in
  SessionContext.message_count self'
  = SessionContext.message_count self + Z.of_nat (length times)
  ∧ SessionContext.last_activity self'
    = List.last times (SessionContext.last_activity self)
  ∧ SessionContext.session_id self' = SessionContext.session_id self
  ∧ SessionContext.user_id self' = SessionContext.user_id self
  ∧ SessionContext.created_at self' = SessionContext.created_at self.
Proof.
  simpl. revert self. induction times as [|now times IH]; intros self.
  - simpl. split_and!; try done. lia.
  - cbn [fold_left]. destruct (IH (SessionContext.update_activity now self))
      as (Hcount & Hlast & Hid & Huser & Hcreated).
    rewrite Hcount, Hlast, Hid, Huser, Hcreated. simpl.
    split_and!; try done; [lia|].
    destruct times as [|t times]; [done|]. apply last_nonempty_default.
Qed.
End Session_facts.

(** A run of [get_recent_messages_last]: the last two of three messages. *)
Lemma get_recent_messages_last_run :
  ConversationHistory.get_recent_messages
    (Fixture.history [Fixture.note "m1" "a"; Fixture.note "m2" "b";
                      Fixture.note "m3" "c"]) 2
  = [Fixture.note "m2" "b"; Fixture.note "m3" "c"].
Proof.
  exact (proj1 (Session_facts.get_recent_messages_last
                  (Fixture.history [Fixture.note "m1" "a"; Fixture.note "m2" "b";
                                    Fixture.note "m3" "c"]) 2 ltac:(lia))).
Defined.

(** A run of [get_recent_messages_nonpositive]: a limit of zero returns all
    three messages, a limit of minus five none. *)
Lemma get_recent_messages_nonpositive_run :
  ConversationHistory.get_recent_messages
    (Fixture.history [Fixture.note "m1" "a"; Fixture.note "m2" "b";
                      Fixture.note "m3" "c"]) 0
  = [Fixture.note "m1" "a"; Fixture.note "m2" "b"; Fixture.note "m3" "c"]
  ∧ ConversationHistory.get_recent_messages
      (Fixture.history [Fixture.note "m1" "a"; Fixture.note "m2" "b";
                        Fixture.note "m3" "c"]) (-5)
    = [].
Proof.
  split.
  - exact (proj1 (Session_facts.get_recent_messages_nonpositive
                    (Fixture.history [Fixture.note "m1" "a";
                                      Fixture.note "m2" "b";
                                      Fixture.note "m3" "c"]) 0 ltac:(lia))).
  - apply (Session_facts.get_recent_messages_nonpositive
             (Fixture.history [Fixture.note "m1" "a"; Fixture.note "m2" "b";
                               Fixture.note "m3" "c"]) (-5) ltac:(lia)).
    simpl. lia.
Defined.


(** ** More on the capability registry *)

Module AgentRegistry_more.
Import AgentRegistry AgentRegistry_facts.

Lemma AgentType_members_all (k : AgentType.t) : k ∈ AgentType.members.
Proof. destruct k; unfold AgentType.members; set_solver. Qed.

Lemma AgentType_value_inj (k k' : AgentType.t) :
  AgentType.value k = AgentType.value k' → k = k'.
Proof.
  intros Heq.
  assert (Some k = Some k') as [= ->]; [|done].
  by rewrite <- !Enum_facts.AgentType_of_value_value, Heq.
Qed.

Section registry.
Context {W : Type}.
Implicit Types (d self : t W) (agent : BaseAgent.t W) (k : AgentType.t).
Implicit Types (agents : list (BaseAgent.t W)).

Lemma setitem_setitem d k agent agent' :
  setitem (setitem d k agent) k agent' = setitem d k agent'.
Proof.
  induction d as [|[k' v'] d IH]; simpl.
  - by rewrite decide_True.
  - destruct (decide (k' = k)) as [->|Hne]; simpl.
    + by rewrite decide_True.
    + by rewrite decide_False, IH.
Qed.

Lemma elem_of_getitem d k agent :
  NoDup (keys d) → (k, agent) ∈ d ↔ getitem d k = Some agent.
Proof.
  induction d as [|[k' v'] d IH]; simpl; intros Hnd.
  - split; [by intros ?%elem_of_nil | done].
  - fold (keys d) in Hnd. apply NoDup_cons in Hnd as [Hk' Hnd].
    rewrite elem_of_cons, (IH Hnd).
    destruct (decide (k' = k)) as [->|Hne].
    + split.
      * intros [[= ->]|Hget]; [done|]. exfalso. apply Hk'.
        destruct (decide (k ∈ keys d)) as [|Hout]; [done|].
        apply getitem_None in Hout. congruence.
      * intros [= ->]. by left.
    + split; [|by right]. intros [[= -> _]|Hget]; [done|done].
Qed.

Lemma last_registered_None agents k :
  last_registered agents k = None ↔ k ∉ map BaseAgent.agent_type agents.
Proof.
  unfold last_registered. split.
  - intros Hnone Hin. apply list_elem_of_In, in_map_iff in Hin
      as (agent & Hk & Hin).
    apply in_rev in Hin.
    pose proof (find_none _ _ Hnone _ Hin) as Hfalse. simpl in Hfalse.
    by rewrite bool_decide_eq_true_2 in Hfalse.
  - intros Hout.
    destruct (List.find _ (rev agents)) as [agent|] eqn:Hfind; [|done].
    apply find_some in Hfind as [Hin Hk]. apply bool_decide_eq_true in Hk.
    exfalso. apply Hout. apply list_elem_of_In, in_map_iff.
    exists agent. split; [done|]. by apply in_rev.
Qed.

(** [get_agent] resolves a capability type to the agent that registered
    last under it, an agent of that type out of those that registered; it
    answers [None] exactly for a type under which none registered. *)
Theorem get_agent_resolves agents k :
  get_agent (registered agents) k = last_registered agents k
  ∧ (get_agent (registered agents) k = None
     ↔ k ∉ map BaseAgent.agent_type agents)
  ∧ (∀ agent, get_agent (registered agents) k = Some agent →
              BaseAgent.agent_type agent = k ∧ agent ∈ agents).
Proof.
  rewrite get_agent_registered. split_and!; [done | apply last_registered_None|].
  intros agent Hfind. unfold last_registered in Hfind.
  apply find_some in Hfind as [Hin Hk]. apply bool_decide_eq_true in Hk.
  split; [done|]. apply list_elem_of_In. by apply in_rev.
Qed.

Lemma length_first_registered agents :
  (length (first_registered agents) <= length agents)%nat.
Proof.
  induction agents as [|agent agents IH] using rev_ind; [done|].
  rewrite first_registered_snoc, length_app. simpl.
  destruct (decide _); [lia|]. rewrite length_app. simpl. lia.
Qed.

(** Whatever registers, and however often, the registry holds at most one
    agent under each capability type, each under its own type: never more
    than eight agents, and never more than registered.  Registering an
    agent a second time in a row changes nothing. *)
Theorem registry_invariant agents agent :
  NoDup (keys (registered agents))
  ∧ Forall (fun '(k, a) => BaseAgent.agent_type a = k) (registered agents)
  ∧ (length (registered agents) <= 8)%nat
  ∧ (length (registered agents) <= length agents)%nat
  ∧ register_agent (register_agent (registered agents) agent) agent
    = register_agent (registered agents) agent.
Proof.
  destruct (well_keyed_registered agents) as [Hnd Hown].
  split_and!; [done | done | | |].
  - rewrite <- (length_map fst). fold (keys (registered agents)).
    change 8%nat with (length AgentType.members).
    apply submseteq_length, NoDup_submseteq; [done|].
    intros k _. apply AgentType_members_all.
  - rewrite <- (length_map fst). fold (keys (registered agents)).
    rewrite keys_registered. apply length_first_registered.
  - unfold register_agent. apply setitem_setitem.
Qed.

Lemma get_all_capabilities_keys self :
  map fst (get_all_capabilities self) = keys self.
Proof.
  unfold get_all_capabilities, keys. rewrite map_map.
  apply map_ext. by intros [k a].
Qed.

Lemma get_all_capabilities_entries agents k caps :
  (k, caps) ∈ get_all_capabilities (registered agents)
  ↔ ∃ agent, get_agent (registered agents) k = Some agent
             ∧ caps = BaseAgent.get_capabilities agent.
Proof.
  destruct (well_keyed_registered agents) as [Hnd _].
  unfold get_all_capabilities, get_agent.
  rewrite list_elem_of_fmap. split.
  - intros ([k' a] & [= -> ->] & Hin). exists a. split; [|done].
    by apply elem_of_getitem.
  - intros (a & Hget & ->). exists (k, a). split; [done|].
    by apply elem_of_getitem.
Qed.

(** [get_all_capabilities] lists the registry's capability types in the
    registry's order, each once, with the capability list of the agent
    that [get_agent] returns for the type. *)
Theorem get_all_capabilities_spec agents :
  map fst (get_all_capabilities (registered agents)) = keys (registered agents)
  ∧ NoDup (map fst (get_all_capabilities (registered agents)))
  ∧ (∀ k caps,
       (k, caps) ∈ get_all_capabilities (registered agents)
       ↔ ∃ agent, get_agent (registered agents) k = Some agent
                  ∧ caps = BaseAgent.get_capabilities agent).
Proof.
  destruct (well_keyed_registered agents) as [Hnd _].
  rewrite get_all_capabilities_keys. split_and!; [done | done |].
  apply get_all_capabilities_entries.
Qed.

Lemma capable_loop_sublist agents task capable w l w' :
  capable_loop agents task capable w = (Return l, w') →
  ∃ found, l = capable ++ found ∧ sublist found agents.
Proof.
  revert capable w. induction agents as [|agent agents IH]; intros capable w.
  - simpl. intros [= <- _]. exists []. by rewrite app_nil_r.
  - simpl. unfold bind.
    destruct (BaseAgent.can_handle agent task w) as [[b|e] w1]; [|done].
    intros Hloop. apply IH in Hloop as (found & -> & Hsub).
    destruct b.
    + exists (agent :: found). rewrite <- app_assoc. split; [done|].
      by constructor.
    + exists found. split; [done|]. by constructor.
Qed.

(** The agents that [find_capable_agents] returns are agents of the
    registry, each at most once and in the registry's order, whatever the
    agents' [can_handle] does to the world. *)
Theorem find_capable_agents_sublist self task w l w' :
  find_capable_agents self task w = (Return l, w') →
  sublist l (values self).
Proof.
  intros Hfind. apply capable_loop_sublist in Hfind as (found & -> & Hsub).
  done.
Qed.

Lemma capable_loop_raises (p : BaseAgent.t W → bool) task before agent after
    capable e w w1 :
  Forall (fun a => ∀ w', BaseAgent.can_handle a task w' = (Return (p a), w'))
    before →
  BaseAgent.can_handle agent task w = (Raise e, w1) →
  capable_loop (before ++ agent :: after) task capable w = (Raise e, w1).
Proof.
  intros Hpure Hraise. revert capable.
  induction Hpure as [|a before Ha _ IH]; intros capable; simpl; unfold bind.
  - by rewrite Hraise.
  - rewrite Ha. apply IH.
Qed.

(** When the [can_handle] of an agent raises, [find_capable_agents] raises
    the same exception there: the agents behind it are not asked, and the
    agents found before it are lost. *)
Theorem find_capable_agents_raises self (p : BaseAgent.t W → bool) task before
    agent after e w w1 :
  values self = before ++ agent :: after →
  Forall (fun a => ∀ w', BaseAgent.can_handle a task w' = (Return (p a), w'))
    before →
  BaseAgent.can_handle agent task w = (Raise e, w1) →
  find_capable_agents self task w = (Raise e, w1).
Proof.
  intros Hvalues Hpure Hraise. unfold find_capable_agents. rewrite Hvalues.
  by eapply capable_loop_raises.
Qed.
End registry.

(** A run of [find_capable_agents_sublist]: the reviewer alone takes the
    testing task. *)
Lemma find_capable_agents_sublist_run :
  find_capable_agents (registered [Sample.coder; Sample.reviewer])
    Sample.task1 Sample.world0
  = (Return [Sample.reviewer], Sample.world0)
  ∧ sublist [Sample.reviewer]
      (values (registered [Sample.coder; Sample.reviewer])).
Proof.
  split; [reflexivity|].
  exact (find_capable_agents_sublist
           (registered [Sample.coder; Sample.reviewer]) Sample.task1
           Sample.world0 [Sample.reviewer] Sample.world0 eq_refl).
Defined.

(** A run of [find_capable_agents_raises]: the second agent's [can_handle]
    raises. *)
Lemma find_capable_agents_raises_run :
  find_capable_agents
    (registered [Sample.coder; Fixture.moody; Sample.reviewer])
    Sample.task0 Sample.world0
  = (Raise (Exception "RuntimeError" "not now"), Sample.world0).
Proof.
  apply (find_capable_agents_raises
           (registered [Sample.coder; Fixture.moody; Sample.reviewer])
           (fun _ => true) Sample.task0 [Sample.coder] Fixture.moody
           [Sample.reviewer]).
  - reflexivity.
  - by repeat constructor.
  - reflexivity.
Defined.
End AgentRegistry_more.

(** ** More on the planning models *)

Module ExecutionPlan_more.
Import ExecutionPlan ExecutionPlan_facts.

Lemma is_ready_mono (completed completed' : gset string) step :
  completed ⊆ completed' →
  is_ready completed step = true → is_ready completed' step = true.
Proof.
  intros Hsub. rewrite !is_ready_spec. intros [Hpending Hdeps].
  split; [done|]. intros dep Hdep. apply Hsub. by apply Hdeps.
Qed.

(** Completing more steps never takes a step out of the ready set: the
    steps ready under a set of completed ids are ready, in the same order,
    under every larger set. *)
Theorem get_ready_steps_mono (plan : t) (completed completed' : gset string) :
  completed ⊆ completed' →
  sublist (get_ready_steps plan completed) (get_ready_steps plan completed').
Proof.
  intros Hsub. rewrite !get_ready_steps_filter.
  induction (steps plan) as [|step l IH]; simpl; [constructor|].
  destruct (is_ready completed step) eqn:Hready.
  - rewrite (is_ready_mono _ _ _ Hsub Hready). by constructor.
  - destruct (is_ready completed' step); [by constructor | done].
Qed.

Lemma progress_full_all_completed plan :
  (get_progress plan == 100)%Q →
  Forall (fun s => ExecutionStep.status s = TaskStatus.COMPLETED) (steps plan).
Proof.
  unfold get_progress. destruct (steps plan) as [|s l] eqn:Hsteps; [done|].
  set (all := s :: l). pose proof (completed_count_le all) as Hle.
  destruct (percentage_bounds
              (Z.of_nat (length (List.filter is_completed all)))
              (Z.of_nat (length all))) as [_ Hfull]; [lia | simpl; lia |].
  rewrite Hfull, Nat2Z.inj_iff. apply completed_count_full.
Qed.

(** A plan whose progress is 100 has nothing left to schedule: whatever
    the set of completed ids, no step of it is ready. *)
Theorem finished_plan_has_no_ready_step (plan : t) (completed : gset string) :
  (get_progress plan == 100)%Q → get_ready_steps plan completed = [].
Proof.
  intros Hfull. apply progress_full_all_completed in Hfull.
  rewrite get_ready_steps_filter.
  induction Hfull as [|step l Hstep _ IH]; simpl; [done|].
  unfold is_ready at 1. rewrite Hstep. simpl. exact IH.
Qed.

(** Nothing checks a dependency id against the plan.  A step that names an
    id of no step of the plan is never ready as long as the completed set
    holds ids of the plan's steps only: it stays Pending for good. *)
Theorem dangling_dependency_never_ready (plan : t) (completed : gset string)
    (step : ExecutionStep.t) (dep_id : string) :
  dep_id ∈ ExecutionStep.dependencies step →
  dep_id ∉ map ExecutionStep.id (steps plan) →
  (∀ id, id ∈ completed → id ∈ map ExecutionStep.id (steps plan)) →
  step ∉ get_ready_steps plan completed.
Proof.
  intros Hdep Hdangling Hcompleted Hready.
  rewrite get_ready_steps_filter, list_elem_of_In, filter_In in Hready.
  destruct Hready as [_ Hready]. apply is_ready_spec in Hready as [_ Hdeps].
  apply Hdangling, Hcompleted, Hdeps, Hdep.
Qed.

(** The progress is 0 exactly when no step is Completed, and each
    Completed step adds the same share: the progress times the number of
    steps is a hundred times the number of Completed steps. *)
Theorem get_progress_share (plan : t) :
  ((get_progress plan == 0)%Q
   ↔ Forall (fun s => ExecutionStep.status s ≠ TaskStatus.COMPLETED)
       (steps plan))
  ∧ (get_progress plan * inject_Z (Z.of_nat (length (steps plan)))
     == inject_Z (100 * Z.of_nat (length (List.filter is_completed (steps plan)))))%Q.
Proof.
  unfold get_progress. destruct (steps plan) as [|s l] eqn:Hsteps.
  - split; [split; [constructor | done] | done].
  - set (all := s :: l).
    assert (0 < Z.of_nat (length all)) as Hpos by (simpl; lia).
    set (c := Z.of_nat (length (List.filter is_completed all))).
    destruct (Z.of_nat (length all)) as [|n|n] eqn:Hn; try lia.
    split.
    + transitivity (c = 0).
      * unfold Qdiv, Qinv, Qmult, Qeq, inject_Z; simpl. lia.
      * unfold c. rewrite <- Nat2Z.inj_0, Nat2Z.inj_iff, length_zero_iff_nil.
        clear. induction all as [|x all IH]; simpl.
        { split; [constructor | done]. }
        unfold is_completed at 1. case_bool_decide as Hx.
        { split; [done|]. intros Hall. by inversion Hall. }
        rewrite IH. split; [by constructor|]. intros Hall. by inversion Hall.
    + unfold Qdiv, Qinv, Qmult, Qeq, inject_Z; simpl. lia.
Qed.
End ExecutionPlan_more.

(** A run of [get_ready_steps_mono]: once step a is completed, step b,
    which waits for it, joins step c in the ready set. *)
Lemma get_ready_steps_mono_run :
  sublist
    (ExecutionPlan.get_ready_steps
       (Sample.plan_of [Sample.step "a" [] TaskStatus.IN_PROGRESS;
                        Sample.step "b" ["a"] TaskStatus.PENDING;
                        Sample.step "c" [] TaskStatus.PENDING]) ∅)
    (ExecutionPlan.get_ready_steps
       (Sample.plan_of [Sample.step "a" [] TaskStatus.IN_PROGRESS;
                        Sample.step "b" ["a"] TaskStatus.PENDING;
                        Sample.step "c" [] TaskStatus.PENDING]) {[ "a" ]}).
Proof.
  apply ExecutionPlan_more.get_ready_steps_mono. apply empty_subseteq.
Defined.

(** A run of [finished_plan_has_no_ready_step]. *)
Lemma finished_plan_has_no_ready_step_run :
  ExecutionPlan.get_ready_steps
    (Sample.plan_of [Sample.step "a" [] TaskStatus.COMPLETED;
                     Sample.step "b" ["a"] TaskStatus.COMPLETED]) {[ "a" ]}
  = [].
Proof.
  apply ExecutionPlan_more.finished_plan_has_no_ready_step. reflexivity.
Defined.

(** A run of [dangling_dependency_never_ready]: step b waits for an id that
    no step has. *)
Lemma dangling_dependency_never_ready_run :
  Sample.step "b" ["ghost"] TaskStatus.PENDING
  ∉ ExecutionPlan.get_ready_steps
      (Sample.plan_of [Sample.step "a" [] TaskStatus.COMPLETED;
                       Sample.step "b" ["ghost"] TaskStatus.PENDING])
      {[ "a" ]}.
Proof.
  apply (ExecutionPlan_more.dangling_dependency_never_ready _ _ _ "ghost").
  - simpl. by left.
  - simpl. intros Hin.
    repeat (apply elem_of_cons in Hin as [Hin|Hin]; [discriminate Hin|]).
    by apply elem_of_nil in Hin.
  - simpl. intros id Hin. apply elem_of_singleton in Hin as ->. by left.
Defined.

(** ** More on the execution engine and the planner *)

Module ExecutionEngine_more.
Import ExecutionEngine ExecutionEngine_facts.

Section engine.
Context {W : Type} `{Runtime W}.
Implicit Types (registry : AgentRegistry.t W) (task : TaskRequest.t) (w : W).

Lemma plan_loop_returns registry tasks acc w (results : list TaskResult.t) w2 :
  plan_loop registry tasks acc w = (Return results, w2) →
  ∃ rs, results = acc ++ rs ∧ runs registry tasks w rs w2.
Proof.
  revert acc w. induction tasks as [|task tasks IH]; intros acc w; simpl.
  - intros [= <- <-]. exists []. split; [by rewrite app_nil_r | constructor].
  - unfold bind.
    destruct (execute_task registry task w) as [[r|e] w1] eqn:Hrun; [|done].
    intros Hloop. apply IH in Hloop as (rs & -> & Hruns).
    exists (r :: rs). rewrite <- app_assoc. split; [done|].
    by econstructor.
Qed.

Lemma runs_length registry tasks w (results : list TaskResult.t) w2 :
  runs registry tasks w results w2 → length results = length tasks.
Proof. induction 1; simpl; congruence. Qed.

(** [execute_plan] returns a list exactly when the subtasks, run one after
    the other in the order of the plan, each in the world the one before
    left, all return: the list holds their results in that order, one for
    each subtask.  The plan's dependency map plays no part. *)
Theorem execute_plan_sequential registry (plan : TaskPlanner.ExecutionPlan) w
    (results : list TaskResult.t) w2 :
  (execute_plan registry plan w = (Return results, w2)
   ↔ runs registry (TaskPlanner.subtasks plan) w results w2)
  ∧ (execute_plan registry plan w = (Return results, w2) →
     length results = length (TaskPlanner.subtasks plan)).
Proof.
  assert (execute_plan registry plan w = (Return results, w2)
          ↔ runs registry (TaskPlanner.subtasks plan) w results w2) as Hiff.
  { split.
    - intros Hrun. apply plan_loop_returns in Hrun as (rs & -> & Hruns). done.
    - intros Hruns. unfold execute_plan.
      by rewrite (plan_loop_runs _ _ _ _ _ _ Hruns). }
  split; [done|]. rewrite Hiff. apply runs_length.
Qed.

Lemma plan_loop_raised registry tasks acc w e w2 :
  plan_loop registry tasks acc w = (Raise e, w2) →
  ∃ before task after (results : list TaskResult.t) w1,
    tasks = before ++ task :: after
    ∧ runs registry before w results w1
    ∧ execute_task registry task w1 = (Raise e, w2).
Proof.
  revert acc w. induction tasks as [|task tasks IH]; intros acc w; simpl.
  - done.
  - unfold bind.
    destruct (execute_task registry task w) as [[r|e'] w1] eqn:Hrun.
    + intros Hloop.
      apply IH in Hloop as (before & t & after & rs & w1' & -> & Hruns & Hraise).
      exists (task :: before), t, after, (r :: rs), w1'.
      split_and!; [done | by econstructor | done].
    + intros [= <- <-]. exists [], task, tasks, [], w.
      split_and!; [done | constructor | done].
Qed.

(** [execute_plan] raises exactly when a subtask's [execute_task] raises
    after its predecessors returned: it raises that exception and stops in
    the world that subtask left, so that the subtasks behind it are not
    run and the results before it are not returned. *)
Theorem execute_plan_stops_at_first_exception registry
    (plan : TaskPlanner.ExecutionPlan) w e w2 :
  execute_plan registry plan w = (Raise e, w2)
  ↔ ∃ before task after (results : list TaskResult.t) w1,
      TaskPlanner.subtasks plan = before ++ task :: after
      ∧ runs registry before w results w1
      ∧ execute_task registry task w1 = (Raise e, w2).
Proof.
  split.
  - apply plan_loop_raised.
  - intros (before & task & after & results & w1 & Hsub & Hruns & Hraise).
    unfold execute_plan. rewrite Hsub.
    by eapply plan_loop_raises.
Qed.

(** Planning a task and executing the plan is executing the task: the
    plan [create_plan] makes has the task as its only subtask, so the
    outcome is the task's result in a list, or the task's exception. *)
Theorem execute_created_plan registry task w :
  (plan <- TaskPlanner.create_plan task ;; execute_plan registry plan)%M w
  = (result <- execute_task registry task ;; ret [result])%M w.
Proof.
  unfold bind, TaskPlanner.create_plan, ret, execute_plan. simpl.
  unfold bind. by destruct (execute_task registry task w) as [[r|e] w1].
Qed.
End engine.
End ExecutionEngine_more.

(** ** The intent classifier *)

Module IntentClassifier_facts.
Import IntentClassifier Keywords String_facts.

(** [classify] always answers, with one of three intents, never with
    documentation or a security scan; it changes nothing, and neither the
    context nor the case of the input's letters has a say. *)
Theorem classify_answers {W : Type} (user_input : string)
    (context context' : ExecutionContext.t) (w : W) :
  ∃ intent,
    classify user_input context w = (Return intent, w)
    ∧ intent ∈ [CODE_GENERATION; INFRASTRUCTURE_SETUP; TESTING]
    ∧ classify (lower user_input) context' w = (Return intent, w).
Proof.
  unfold classify. rewrite lower_idempotent.
  unfold intent_examples, first_match.
  repeat (destruct (existsb _ _);
          [eexists; split; [reflexivity|]; split; [set_solver | reflexivity]|]).
  eexists. split; [reflexivity|]. split; [set_solver | reflexivity].
Qed.

(** On ASCII input the keywords are tried intent by intent, code
    generation first: an input is classified as testing only when it
    mentions no keyword of code generation and none of infrastructure, as
    infrastructure only when it mentions no keyword of code generation,
    and as code generation also when it mentions no keyword at all. *)
Theorem classify_precedence {W : Type} (user_input : string)
    (context : ExecutionContext.t) (w : W) :
  is_ascii user_input = true →
  (classify user_input context w = (Return TESTING, w)
   ↔ mentions CODE_GENERATION user_input = false
     ∧ mentions INFRASTRUCTURE_SETUP user_input = false
     ∧ mentions TESTING user_input = true)
  ∧ (classify user_input context w = (Return INFRASTRUCTURE_SETUP, w)
     ↔ mentions CODE_GENERATION user_input = false
       ∧ mentions INFRASTRUCTURE_SETUP user_input = true)
  ∧ (classify user_input context w = (Return CODE_GENERATION, w)
     ↔ mentions CODE_GENERATION user_input = true
       ∨ (mentions INFRASTRUCTURE_SETUP user_input = false
          ∧ mentions TESTING user_input = false)).
Proof.
  intros _. unfold classify, mentions.
  change (keywords CODE_GENERATION)
    with ["create a function"; "write code for"; "implement"; "generate"].
  change (keywords INFRASTRUCTURE_SETUP)
    with ["deploy to"; "create dockerfile"; "setup kubernetes"].
  change (keywords TESTING)
    with ["write tests"; "create unit tests"; "test coverage"].
  unfold intent_examples, first_match.
  destruct (existsb _ ["create a function"; _; _; _]);
    destruct (existsb _ ["deploy to"; _; _]);
    destruct (existsb _ ["write tests"; _; _]);
    (split_and!;
     (split;
      [ try done; try (intros _; by split_and!); try (intros _; by left);
        try (intros _; by right)
      | try done; try (by intros (? & ? & ?)); try (by intros (? & ?));
        try (by intros [?|[? ?]]) ])).
Qed.

(** A run of [classify_precedence]: infrastructure goes before testing,
    and code generation before both. *)
Lemma classify_precedence_run :
  classify "Write tests, then deploy to prod" Sample.context0 Sample.world0
  = (Return INFRASTRUCTURE_SETUP, Sample.world0)
  ∧ classify "Generate and write tests" Sample.context0 Sample.world0
    = (Return CODE_GENERATION, Sample.world0).
Proof.
  split.
  - apply (proj1 (proj2 (classify_precedence
                           "Write tests, then deploy to prod" Sample.context0
                           Sample.world0 eq_refl))).
    by split.
  - apply (proj2 (proj2 (classify_precedence "Generate and write tests"
                           Sample.context0 Sample.world0 eq_refl))).
    by left.
Defined.
End IntentClassifier_facts.

(** ** More on the orchestrator façade *)

Module AgenticMiddleware_more.
Import AgenticMiddleware AgenticMiddleware_facts.

Lemma TaskRequest_new_of_classified (task_id : string) (created : Z)
    (intent : IntentClassifier.IntentType) (user_input : string)
    (context : ExecutionContext.t) :
  (strip user_input = "" →
   TaskRequest.new task_id created (IntentClassifier.value intent) user_input
     context
   = Raise (ValidationError "TaskRequest" ["description"]))
  ∧ (strip user_input ≠ "" →
     ∃ task,
       TaskRequest.new task_id created (IntentClassifier.value intent)
         user_input context = Return task
       ∧ TaskRequest.id task = task_id
       ∧ TaskRequest.description task = strip user_input
       ∧ IntentType.value (TaskRequest.intent task)
         = IntentClassifier.value intent
       ∧ TaskRequest.context task = context).
Proof.
  unfold TaskRequest.new. split; intros Hinput.
  - rewrite (agent_models_facts.validate_description_None _ Hinput).
    by destruct intent.
  - rewrite (agent_models_facts.validate_description_Some _ Hinput).
    destruct intent; simpl; eexists; (split; [reflexivity|]); by split_and!.
Qed.

Section middleware.
Context {W : Type} `{Runtime W}.
Implicit Types (self : t W) (w : W).

(** A blank input never reaches the engine: once the classifier has
    answered, the request is rejected for its description and the façade
    returns the Failed response for that validation error. *)
Theorem process_request_rejects_blank_input self (user_input : string)
    (context : ExecutionContext.t) w intent w1 task_id w2 :
  classify self user_input context w = (Return intent, w1) →
  uuid4 w1 = (task_id, w2) →
  strip user_input = "" →
  process_request self user_input context w
  = (Return (failed (ValidationError "TaskRequest" ["description"])
               (utcnow_of w2)), w2).
Proof.
  intros Hclassify Huuid Hblank.
  unfold process_request, try_except, request_body, bind, fresh_uuid, utcnow,
    lift.
  rewrite Hclassify, Huuid.
  by rewrite (proj1 (TaskRequest_new_of_classified _ _ _ _ _) Hblank).
Qed.

(** An ASCII input that is not blank reaches the engine as one task: the
    task carries the stripped input as its description, the classifier's
    intent, the fresh id and the caller's context, and the response is
    what the engine's result for that task formats to, or the Failed
    response for what the engine or the formatting raises. *)
Theorem process_request_dispatches_one_task self (user_input : string)
    (context : ExecutionContext.t) w intent w1 task_id w2 :
  is_ascii user_input = true →
  classify self user_input context w = (Return intent, w1) →
  uuid4 w1 = (task_id, w2) →
  strip user_input ≠ "" →
  ∃ task,
    TaskRequest.id task = task_id
    ∧ TaskRequest.description task = strip user_input
    ∧ IntentType.value (TaskRequest.intent task) = IntentClassifier.value intent
    ∧ TaskRequest.context task = context
    ∧ process_request self user_input context w
      = try_except
          (result <- execute_task self (agent_registry self) task ;;
           _format_single_result result)%M
          failed_response w2.
Proof.
  intros _ Hclassify Huuid Hfull.
  destruct (proj2 (TaskRequest_new_of_classified task_id (utcnow_of w2) intent
                     user_input context) Hfull)
    as (task & Hnew & Hid & Hdesc & Hintent & Hctx).
  exists task. split_and!; [done..|].
  unfold process_request, try_except, request_body, bind, fresh_uuid, utcnow,
    lift, _needs_planning, ret.
  by rewrite Hclassify, Huuid, Hnew.
Qed.

(** [process_request] never plans: whatever planner and whatever
    [execute_plan] the middleware holds, the response and the world are
    the same. *)
Theorem process_request_ignores_planner self
    (create_plan' :
       AgentRegistry.t W → TaskRequest.t → M W TaskPlanner.ExecutionPlan)
    (execute_plan' :
       AgentRegistry.t W → TaskPlanner.ExecutionPlan → M W (list TaskResult.t))
    (user_input : string) (context : ExecutionContext.t) w :
  process_request
    {| agent_registry := agent_registry self; classify := classify self;
       create_plan := create_plan'; execute_plan := execute_plan';
       execute_task := execute_task self |}
    user_input context w
  = process_request self user_input context w.
Proof.
  unfold process_request, try_except, request_body, bind, _needs_planning, ret.
  simpl. destruct (classify self user_input context w) as [[intent|e] w1];
    [|done].
  destruct (fresh_uuid w1) as [[task_id|e] w2]; [|done].
  destruct (utcnow w2) as [[created|e] w3]; [|done].
  unfold lift. by destruct (TaskRequest.new _ _ _ _ _) as [task|e].
Qed.

(** Registering agents with the middleware is registering them with its
    registry, in the same order. *)
Lemma agent_registry_registered_from self (agents : list (BaseAgent.t W)) :
  agent_registry (fold_left register_agent agents self)
  = fold_left AgentRegistry.register_agent agents (agent_registry self).
Proof.
  revert self. induction agents as [|agent agents IH]; intros self; [done|].
  simpl. by rewrite IH.
Qed.
End middleware.

(** A run of [process_request_rejects_blank_input]. *)
Lemma process_request_rejects_blank_input_run :
  process_request (register_agent init Sample.finisher) "   "
    Sample.context0 Sample.world0
  = (Return (failed (ValidationError "TaskRequest" ["description"])
               1700000000000000),
     {| Sample.clock := 1700000000000000; Sample.entropy := ["uuid-2"];
        Sample.dispatched := [] |}).
Proof.
  exact (process_request_rejects_blank_input
           (register_agent init Sample.finisher) "   " Sample.context0
           Sample.world0 IntentClassifier.CODE_GENERATION Sample.world0
           "uuid-1"
           {| Sample.clock := 1700000000000000; Sample.entropy := ["uuid-2"];
              Sample.dispatched := [] |}
           eq_refl eq_refl eq_refl).
Defined.

(** A run of [process_request_dispatches_one_task]. *)
Lemma process_request_dispatches_one_task_run :
  ∃ task,
    TaskRequest.id task = "uuid-1"
    ∧ TaskRequest.description task = "Write tests"
    ∧ IntentType.value (TaskRequest.intent task) = "testing"
    ∧ TaskRequest.context task = Sample.context0
    ∧ process_request (register_agent init Sample.finisher) " Write tests "
        Sample.context0 Sample.world0
      = try_except
          (result <- execute_task (register_agent init Sample.finisher)
                       (agent_registry (register_agent init Sample.finisher))
                       task ;;
           _format_single_result result)%M
          failed_response
          {| Sample.clock := 1700000000000000; Sample.entropy := ["uuid-2"];
             Sample.dispatched := [] |}.
Proof.
  exact (process_request_dispatches_one_task
           (register_agent init Sample.finisher) " Write tests "
           Sample.context0 Sample.world0 IntentClassifier.TESTING
           Sample.world0 "uuid-1"
           {| Sample.clock := 1700000000000000; Sample.entropy := ["uuid-2"];
              Sample.dispatched := [] |}
           eq_refl eq_refl eq_refl ltac:(discriminate)).
Defined.
End AgenticMiddleware_more.

(** ** The code generation agent *)

Module CodeGenerationAgent_facts.
Import CodeGenerationAgent.

Section agent.
Context {W : Type} `{Runtime W}.
Variable json_loads : string → option Json.
Variable llm_client : option (list Payload → M W MockResponse).
Implicit Types (task : TaskRequest.t) (w : W).

(** The result the [except] block builds is always accepted. *)
Lemma failed_result_accepted created task (message : string) :
  TaskResult.new created (TaskRequest.id task) (AgentType.value AgentType.CODE)
    TaskStatus.FAILED None (Some message) 0
  = Return {| TaskResult.task_id := TaskRequest.id task;
              TaskResult.agent_type := Value AgentType.CODE;
              TaskResult.status := Value TaskStatus.FAILED;
              TaskResult.result := None; TaskResult.error := Some message;
              TaskResult.execution_time := 0; TaskResult.tokens_used := 0;
              TaskResult.cost := 0; TaskResult.confidence_score := 1;
              TaskResult.metadata := ∅; TaskResult.created_at := created;
              TaskResult.completed_at := None |}.
Proof. reflexivity. Qed.

Lemma completed_result_accepted created task (payload : option Payload) :
  TaskResult.new created (TaskRequest.id task) (AgentType.value AgentType.CODE)
    TaskStatus.COMPLETED payload None (3 # 2)
  = Return {| TaskResult.task_id := TaskRequest.id task;
              TaskResult.agent_type := Value AgentType.CODE;
              TaskResult.status := Value TaskStatus.COMPLETED;
              TaskResult.result := payload; TaskResult.error := None;
              TaskResult.execution_time := 3 # 2; TaskResult.tokens_used := 0;
              TaskResult.cost := 0; TaskResult.confidence_score := 1;
              TaskResult.metadata := ∅; TaskResult.created_at := created;
              TaskResult.completed_at := None |}.
Proof. reflexivity. Qed.

Lemma execute_returns task w :
  ∃ r w',
    execute json_loads llm_client task w = (Return r, w')
    ∧ TaskResult.task_id r = TaskRequest.id task
    ∧ enum_of (TaskResult.agent_type r) = AgentType.CODE
    ∧ ((enum_of (TaskResult.status r) = TaskStatus.COMPLETED
        ∧ TaskResult.error r = None
        ∧ TaskResult.execution_time r = 3 # 2)
       ∨ (enum_of (TaskResult.status r) = TaskStatus.FAILED
          ∧ TaskResult.result r = None
          ∧ is_Some (TaskResult.error r))).
Proof.
  unfold execute, try_except, bind, utcnow, lift.
  destruct (chat_completion llm_client _ w) as [[response|e] w1].
  - destruct (match json_loads (content response) with
              | Some data => data
              | None => _
              end) as [p| |].
    + rewrite completed_result_accepted. do 2 eexists. split; [reflexivity|].
      split_and!; [done..|]. left. by split_and!.
    + rewrite completed_result_accepted. do 2 eexists. split; [reflexivity|].
      split_and!; [done..|]. left. by split_and!.
    + simpl. do 2 eexists. split; [reflexivity|].
      split_and!; [done..|]. right. split_and!; [done..|]. by eexists.
  - simpl. do 2 eexists. split; [reflexivity|].
    split_and!; [done..|]. right. split_and!; [done..|]. by eexists.
Qed.

(** The code agent's [execute] never raises: whatever the client and the
    JSON decoder do, it returns a result for the task, under the agent's
    own type, that is either Completed without an error or Failed with an
    error message and no payload. *)
Theorem execute_always_reports task w :
  ∃ r w',
    execute json_loads llm_client task w = (Return r, w')
    ∧ TaskResult.task_id r = TaskRequest.id task
    ∧ enum_of (TaskResult.agent_type r) = AgentType.CODE
    ∧ ((enum_of (TaskResult.status r) = TaskStatus.COMPLETED
        ∧ TaskResult.error r = None
        ∧ TaskResult.execution_time r = 3 # 2)
       ∨ (enum_of (TaskResult.status r) = TaskStatus.FAILED
          ∧ TaskResult.result r = None
          ∧ is_Some (TaskResult.error r))).
Proof. exact (execute_returns task w). Qed.

(** A fault of the client becomes a Failed result that carries the
    fault's message, in the world the client left; an agent that was given
    no client fails every task that way. *)
Theorem client_fault_is_reported task w e w1 :
  (∀ messages, chat_completion llm_client messages w = (Raise e, w1)) →
  ∃ r,
    execute json_loads llm_client task w = (Return r, w1)
    ∧ enum_of (TaskResult.status r) = TaskStatus.FAILED
    ∧ TaskResult.error r = Some (str e)
    ∧ TaskResult.result r = None
    ∧ TaskResult.task_id r = TaskRequest.id task.
Proof.
  intros Hfault. unfold execute, try_except, bind, utcnow, lift.
  rewrite Hfault, failed_result_accepted. eexists. split; [reflexivity|].
  by split_and!.
Qed.

(** An answer that is no JSON text is not a fault: the task is Completed,
    with the answer as the code of a Python payload. *)
Theorem plain_answer_is_wrapped task w response w1 :
  (∀ messages, chat_completion llm_client messages w = (Return response, w1)) →
  json_loads (content response) = None →
  ∃ r,
    execute json_loads llm_client task w = (Return r, w1)
    ∧ enum_of (TaskResult.status r) = TaskStatus.COMPLETED
    ∧ TaskResult.result r
      = Some {[ "code" := content response; "language" := "python";
                "explanation" := "Generated code based on your request." ]}.
Proof.
  intros Hanswer Hjson. unfold execute, try_except, bind, utcnow, lift.
  rewrite Hanswer, Hjson, completed_result_accepted.
  eexists. split; [reflexivity|]. by split_and!.
Qed.

(** With the code agent as the only agent, the engine is total on the
    tasks of code generation: [execute_task] is the agent's [execute],
    which returns. *)
Theorem engine_with_code_agent task w :
  TaskRequest.intent task = IntentType.CODE_GENERATION →
  ExecutionEngine.execute_task
    (AgentRegistry.registered [init json_loads llm_client]) task w
  = execute json_loads llm_client task w
  ∧ ∃ r w',
      ExecutionEngine.execute_task
        (AgentRegistry.registered [init json_loads llm_client]) task w
      = (Return r, w')
      ∧ TaskResult.task_id r = TaskRequest.id task.
Proof.
  intros Hintent.
  assert (ExecutionEngine.execute_task
            (AgentRegistry.registered [init json_loads llm_client]) task w
          = execute json_loads llm_client task w) as Heq.
  { unfold ExecutionEngine.execute_task, AgentRegistry.find_capable_agents.
    simpl. unfold bind, utcnow, try_except, can_handle, ret. simpl.
    rewrite bool_decide_eq_true_2 by done. simpl.
    destruct (execute_returns task w) as (r & w' & -> & _). done. }
  split; [done|]. rewrite Heq.
  destruct (execute_returns task w) as (r & w' & Hrun & Hid & _). eauto.
Qed.
End agent.

(** A run of [client_fault_is_reported]: the client is out of reach. *)
Lemma client_fault_is_reported_run :
  ∃ r,
    execute Fixture.json_loads (Some Fixture.llm_down) Sample.task0
      Sample.world0 = (Return r, Sample.world0)
    ∧ enum_of (TaskResult.status r) = TaskStatus.FAILED
    ∧ TaskResult.error r = Some "connection refused".
Proof.
  destruct (client_fault_is_reported Fixture.json_loads
              (Some Fixture.llm_down) Sample.task0 Sample.world0
              (Exception "ConnectionError" "connection refused") Sample.world0
              (fun _ => eq_refl))
    as (r & Hrun & Hstatus & Herror & _).
  exists r. by split_and!.
Defined.

(** A run of [plain_answer_is_wrapped]: the client answers with plain
    text. *)
Lemma plain_answer_is_wrapped_run :
  ∃ r w1,
    execute Fixture.json_loads (Some Fixture.llm_text) Sample.task0
      Sample.world0 = (Return r, w1)
    ∧ enum_of (TaskResult.status r) = TaskStatus.COMPLETED
    ∧ TaskResult.result r
      = Some {[ "code" := "print('hi')"; "language" := "python";
                "explanation" := "Generated code based on your request." ]}.
Proof.
  destruct (plain_answer_is_wrapped Fixture.json_loads
              (Some Fixture.llm_text) Sample.task0 Sample.world0
              {| content := "print('hi')" |}
              {| Sample.clock := 1700000000050000;
                 Sample.entropy := ["uuid-1"; "uuid-2"];
                 Sample.dispatched := [(AgentType.CODE, Sample.task0)] |}
              (fun _ => eq_refl) eq_refl)
    as (r & Hrun & Hstatus & Hresult).
  exists r. eexists. by split_and!.
Defined.

(** A run of [engine_with_code_agent]. *)
Lemma engine_with_code_agent_run :
  ExecutionEngine.execute_task
    (AgentRegistry.registered [init Fixture.json_loads (Some Fixture.llm_down)])
    Sample.task0 Sample.world0
  = execute Fixture.json_loads (Some Fixture.llm_down) Sample.task0
      Sample.world0.
Proof.
  exact (proj1 (engine_with_code_agent Fixture.json_loads
                  (Some Fixture.llm_down) Sample.task0 Sample.world0 eq_refl)).
Defined.
End CodeGenerationAgent_facts.

(** ** The API endpoints *)

Module middleware_api_facts.
Import middleware_api.

Section api.
Context {W : Type} `{Runtime W}.
Implicit Types (middleware : AgenticMiddleware.t W) (w : W).

(** [chat] answers 503 while there is no middleware.  With a middleware it
    answers 500 for a blank workspace path, which the context's
    constructor rejects, and for an ASCII workspace path that is not blank
    it returns the session id and a response that carries a status: no
    fault of the classifier, the engine or an agent becomes an HTTP
    error. *)
Theorem chat_spec (message_ : ChatMessage) w :
  chat None message_ w = (HTTPException 503 "Middleware not initialized", w)
  ∧ ∀ middleware,
      (strip (workspace_path message_) = "" →
       chat (Some middleware) message_ w
       = (HTTPException 500
            (str (ValidationError "ExecutionContext" ["workspace_path"])), w))
      ∧ (is_ascii (workspace_path message_) = true →
         strip (workspace_path message_) ≠ "" →
         ∃ reply response w',
           chat (Some middleware) message_ w = (Responds reply, w')
           ∧ reply !! "session_id" = Some (RStr (session_id message_))
           ∧ reply !! "response" = Some (RResponse response)
           ∧ is_Some (response !! "status")).
Proof.
  split; [done|]. intros middleware.
  unfold chat, chat_body, bind, lift, agent_models.ExecutionContext_init.
  split; [intros Hpath | intros _ Hpath].
  - by rewrite (agent_models_facts.validate_description_None _ Hpath).
  - rewrite (agent_models_facts.validate_description_Some _ Hpath).
    match goal with
    | |- context [AgenticMiddleware.process_request ?mw ?input ?ctx w] =>
        destruct (AgenticMiddleware_facts.try_body_returns
                    (AgenticMiddleware.request_body mw input ctx) w
                    (fun response w1 =>
                       AgenticMiddleware_facts.request_body_status mw input
                         ctx w response w1))
          as (response & w1 & Hrun & Hstatus)
    end.
    unfold AgenticMiddleware.process_request. rewrite Hrun. simpl.
    exists ({[ "session_id" := RStr (session_id message_);
               "response" := RResponse response;
               "timestamp" := RStr "2024-01-01T00:00:00Z" ]}), response, w1.
    split_and!; [done | by simplify_map_eq | by simplify_map_eq | done].
Qed.

(** [list_agents] lists nothing while there is no middleware.  For a
    middleware on which agents were registered it lists every capability
    type that registered, once, by its value, with the capabilities of the
    agent that registered last under it. *)
Theorem list_agents_spec (agents : list (BaseAgent.t W)) :
  list_agents (@None (AgenticMiddleware.t W)) = []
  ∧ NoDup (map fst (list_agents
                      (Some (fold_left AgenticMiddleware.register_agent agents
                               AgenticMiddleware.init))))
  ∧ ∀ type caps,
      (type, caps)
      ∈ list_agents (Some (fold_left AgenticMiddleware.register_agent agents
                             AgenticMiddleware.init))
      ↔ ∃ k agent,
          type = AgentType.value k
          ∧ AgentRegistry.last_registered agents k = Some agent
          ∧ caps = BaseAgent.get_capabilities agent.
Proof.
  split; [done|]. unfold list_agents.
  rewrite AgenticMiddleware_more.agent_registry_registered_from.
  change (fold_left AgentRegistry.register_agent agents
            (AgenticMiddleware.agent_registry AgenticMiddleware.init))
    with (AgentRegistry.registered agents).
  pose proof (AgentRegistry_more.get_all_capabilities_entries agents) as Hin.
  split.
  - rewrite map_map.
    rewrite (map_ext _ (fun entry => AgentType.value (fst entry)))
      by (by intros [k caps]).
    rewrite <- (map_map fst AgentType.value).
    rewrite AgentRegistry_more.get_all_capabilities_keys.
    apply NoDup_fmap_2;
      [|apply (AgentRegistry_facts.well_keyed_registered agents)].
    intros k k'. apply AgentRegistry_more.AgentType_value_inj.
  - intros type caps. rewrite list_elem_of_fmap. split.
    + intros ([k caps'] & [= -> ->] & Hentry).
      apply Hin in Hentry as (agent & Hget & ->).
      exists k, agent. split_and!; [done| |done].
      by rewrite <- AgentRegistry_facts.get_agent_registered.
    + intros (k & agent & -> & Hlast & ->).
      exists (k, BaseAgent.get_capabilities agent). split; [done|].
      apply Hin. exists agent. split; [|done].
      by rewrite AgentRegistry_facts.get_agent_registered.
Qed.
End api.

(** A run of [chat_spec]: a blank workspace path is answered with 500, and
    a path that is not blank with a reply for the session. *)
Lemma chat_spec_run :
  chat (Some (AgenticMiddleware.register_agent AgenticMiddleware.init
                Sample.finisher))
    (Fixture.chat_message "Implement a parser" "  ") Sample.world0
  = (HTTPException 500
       (str (ValidationError "ExecutionContext" ["workspace_path"])),
     Sample.world0)
  ∧ ∃ reply response w',
      chat (Some (AgenticMiddleware.register_agent AgenticMiddleware.init
                    Sample.finisher))
        (Fixture.chat_message "Implement a parser" "/tmp/workspace")
        Sample.world0
      = (Responds reply, w')
      ∧ reply !! "session_id" = Some (RStr "s1")
      ∧ reply !! "response" = Some (RResponse response)
      ∧ is_Some (response !! "status").
Proof.
  split.
  - exact (proj1 (proj2 (chat_spec
                           (Fixture.chat_message "Implement a parser" "  ")
                           Sample.world0)
                    (AgenticMiddleware.register_agent AgenticMiddleware.init
                       Sample.finisher)) eq_refl).
  - exact (proj2 (proj2 (chat_spec
                           (Fixture.chat_message "Implement a parser"
                              "/tmp/workspace")
                           Sample.world0)
                    (AgenticMiddleware.register_agent AgenticMiddleware.init
                       Sample.finisher)) eq_refl ltac:(discriminate)).
Defined.
End middleware_api_facts.
